(** * Room membership and message fan-out of the chat-room server (app.py)

    A shallow embedding of the [Notifier] class, of the
    [websocket_endpoint] session loop and of [startup_event] of
    [src/app.py].

    - Python objects that are only compared by identity (the [WebSocket]
      handles) are natural numbers.
    - [self.connections] is a [defaultdict(dict)]: a finite map from room
      names to a value that is either the auto-created empty dict [{}] or
      a Python list of handles.  Reading a missing key stores [{}] there.
    - Methods are computations in a state-and-exception monad over the
      notifier and an event log; a raised exception keeps the mutations
      made before it, as in Python.
    - What the transport does ([accept], [send_text], [receive_text]),
      what [json.loads] returns, whether [insert_message] raises and
      what the database calls of the startup do are outside the source;
      they are parameters of the model.
    - The coroutines of the sessions are also given as a transition
      system that stops at every [await], so that schedules in which a
      session runs while another one is suspended can be followed. *)

From stdpp Require Import gmap strings list.
From Equations Require Import Equations.

Local Open Scope string_scope.
Local Open Scope list_scope.

(** ** Values *)

Definition WebSocket := nat.

Inductive exn :=
| WebSocketDisconnect
| AttributeError
| ValueError
| IndexError
| KeyError
| TypeError
| RuntimeError
| StopIteration
| StopAsyncIteration
| JSONDecodeError.

Global Instance exn_eq_dec : EqDecision exn.
Proof. solve_decision. Defined.

Inductive result (A : Type) :=
| Ok (a : A)
| Raise (e : exn).
Arguments Ok {A} a.
Arguments Raise {A} e.

(** The value stored under a room name: [{}] as made by the default
    factory of [defaultdict(dict)], or a list of connections. *)
Inductive members :=
| EmptyDict
| ConnList (l : list WebSocket).

Global Instance members_eq_dec : EqDecision members.
Proof. solve_decision. Defined.

(** Iteration order of the container, [len(...)] and [x in ...]. *)
Definition elements_of (v : members) : list WebSocket :=
  match v with
  | EmptyDict => []
  | ConnList l => l
  end.

Definition len (v : members) : nat := length (elements_of v).

Definition contains (websocket : WebSocket) (v : members) : bool :=
  bool_decide (websocket ∈ elements_of v).

(** State of the async generator object [self.generator]. While the body
    of an async generator is suspended in an await the generator counts
    as running, and a second [asend] raises RuntimeError (Python 3.8 and
    later). *)
Inductive genstate :=
| GenCreated      (* made by __init__, not yet advanced to the first yield *)
| GenSuspended    (* waiting at [message = yield] *)
| GenRunning      (* inside [_notify], suspended in an await *)
| GenClosed.      (* an exception left the generator body *)

Global Instance genstate_eq_dec : EqDecision genstate.
Proof. solve_decision. Defined.

(** Values found in a parsed payload: JSON strings and anything else. *)
Inductive value :=
| VStr (s : string)
| VOther (n : nat).

Global Instance value_eq_dec : EqDecision value.
Proof. solve_decision. Defined.

(** What the collaborators of the notifier see: handshakes accepted,
    texts sent or refused by a transport, calls of [insert_message]. *)
Inductive event :=
| Accepted (websocket : WebSocket)
| Sent (websocket : WebSocket) (text : string)
| SendFailed (websocket : WebSocket) (text : string) (e : exn)
| InsertMessage (message sender room : value).

Global Instance event_eq_dec : EqDecision event.
Proof. solve_decision. Defined.

Record Notifier := mkNotifier {
  connections : gmap string members;
  generator : genstate;
  log : list event
}.

(** [Notifier.__init__] *)
Definition Notifier_init : Notifier := mkNotifier ∅ GenCreated [].

(** ** The state-and-exception monad *)

Definition M (A : Type) : Type := Notifier -> result A * Notifier.

Definition raise {A} (e : exn) : M A := fun n => (Raise e, n).

Global Instance M_ret : MRet M := fun A a n => (Ok a, n).

Global Instance M_bind : MBind M := fun A B k m n =>
  match m n with
  | (Ok a, n') => k a n'
  | (Raise e, n') => (Raise e, n')
  end.

Definition emit (ev : event) : M unit :=
  fun n => (Ok tt, mkNotifier (connections n) (generator n) (log n ++ [ev])).

Definition set_generator (g : genstate) : M unit :=
  fun n => (Ok tt, mkNotifier (connections n) g (log n)).

(** [self.connections[room_name]]: the default factory stores [{}] under
    a missing key. *)
Definition getitem (room_name : string) : M members :=
  fun n =>
    match connections n !! room_name with
    | Some v => (Ok v, n)
    | None =>
        (Ok EmptyDict,
         mkNotifier (<[room_name := EmptyDict]> (connections n)) (generator n) (log n))
    end.

(** [self.connections[room_name] = v] *)
Definition setitem (room_name : string) (v : members) : M unit :=
  fun n => (Ok tt, mkNotifier (<[room_name := v]> (connections n)) (generator n) (log n)).

(** What a read of [self.connections[room_name]] yields in state [n]. *)
Definition room_value (room_name : string) (n : Notifier) : members :=
  default EmptyDict (connections n !! room_name).

(** Keeps the equation of a [with] scrutinee for termination proofs. *)
Definition inspect {A} (a : A) : {b | a = b} := exist _ a eq_refl.

(** ** List methods *)

(** [l.pop()]: the last element and the list without it. *)
Definition list_pop (l : list WebSocket) : option (list WebSocket * WebSocket) :=
  match reverse l with
  | [] => None
  | x :: r => Some (reverse r, x)
  end.

(** [l.remove(x)]: drops the first occurrence, [None] when there is none
    (Python raises ValueError). *)
Fixpoint list_remove (x : WebSocket) (l : list WebSocket) : option (list WebSocket) :=
  match l with
  | [] => None
  | y :: l' =>
      if decide (x = y) then Some l'
      else match list_remove x l' with
           | Some r => Some (y :: r)
           | None => None
           end
  end.

(** ** The notification generator *)

(** An exception that leaves the body of an async generator closes it;
    StopIteration and StopAsyncIteration come out as RuntimeError. *)
Definition generator_exit (e : exn) : exn :=
  match e with
  | StopIteration | StopAsyncIteration => RuntimeError
  | _ => e
  end.

(** [self.generator.asend(message_body)] up to the point where the body
    of [get_notification_generator] is resumed at [message = yield]. *)
Definition asend_resume : M unit :=
  fun n =>
    match generator n with
    | GenCreated => raise TypeError n
    | GenRunning => raise RuntimeError n
    | GenClosed => raise StopAsyncIteration n
    | GenSuspended => set_generator GenRunning n
    end.

(** The body reaches [yield] again: [asend] returns. *)
Definition asend_yield : M unit := set_generator GenSuspended.

(** An exception leaves the body: the generator is closed and [asend]
    raises. *)
Definition asend_raise {A} (e : exn) : M A :=
  set_generator GenClosed;; raise (generator_exit e).

(** Runs the resumed body until it is back at the yield or raises. *)
Definition until_yield (body : M unit) : M unit :=
  fun n =>
    match body n with
    | (Ok _, n') => asend_yield n'
    | (Raise e, n') => asend_raise e n'
    end.

(** [notifier.generator.asend(None)]: a new generator runs to its first
    yield; a suspended one would resume with [message = None] and fail
    on [message["message"]]. *)
Definition prime_generator : M unit :=
  fun n =>
    match generator n with
    | GenCreated => set_generator GenSuspended n
    | GenSuspended => asend_raise TypeError n
    | GenRunning => raise RuntimeError n
    | GenClosed => raise StopAsyncIteration n
    end.

(** ** Notifier *)

Section Notifier.

(** The transport: whether [websocket.accept()] and
    [websocket.send_text(text)] raise. *)
Variable accept : WebSocket -> option exn.
Variable send_text : WebSocket -> string -> option exn.

Definition await_accept (websocket : WebSocket) : M unit :=
  match accept websocket with
  | Some e => raise e
  | None => emit (Accepted websocket)
  end.

Definition await_send_text (websocket : WebSocket) (text : string) : M unit :=
  match send_text websocket text with
  | Some e => emit (SendFailed websocket text e) ;; raise e
  | None => emit (Sent websocket text)
  end.

(** [Notifier.get_members]; [None] is Python's None of the except branch. *)
Definition get_members (room_name : string) : M (option members) :=
  fun n =>
    match getitem room_name n with
    | (Ok v, n') => (Ok (Some v), n')
    | (Raise _, n') => (Ok None, n')
    end.

(** The part of [Notifier.connect] after [await websocket.accept()]. *)
Definition connect_register (websocket : WebSocket) (room_name : string) : M unit :=
  v ← getitem room_name;
  (if decide (v = EmptyDict) then setitem room_name (ConnList [])
   else
     v' ← getitem room_name;
     if decide (len v' = 0) then setitem room_name (ConnList []) else mret tt);;
  v'' ← getitem room_name;
  match v'' with
  | EmptyDict => raise AttributeError
  | ConnList l => setitem room_name (ConnList (l ++ [websocket]))
  end.

(** [Notifier.connect] *)
Definition connect (websocket : WebSocket) (room_name : string) : M unit :=
  await_accept websocket;;
  connect_register websocket room_name.

(** [Notifier.remove] *)
Definition remove (websocket : WebSocket) (room_name : string) : M unit :=
  v ← getitem room_name;
  match v with
  | EmptyDict => raise AttributeError
  | ConnList l =>
      match list_remove websocket l with
      | None => raise ValueError
      | Some l' => setitem room_name (ConnList l')
      end
  end.

(** The head of the while loop of [_notify]: the test
    [len(self.connections[room_name]) > 0] and, when it holds,
    [self.connections[room_name].pop()]. *)
Definition pop_connection (room_name : string) : M (option WebSocket) :=
  v ← getitem room_name;
  if decide (0 < len v) then
    v' ← getitem room_name;
    match list_pop (elements_of v') with
    | None => raise (match v' with EmptyDict => TypeError | ConnList _ => IndexError end)
    | Some (rest, websocket) =>
        setitem room_name (ConnList rest);;
        mret (Some websocket)
    end
  else mret None.

(** The while loop of [Notifier._notify] followed by the assignment
    [self.connections[room_name] = living_connections]. *)
Equations? notify_loop (message room_name : string)
    (living_connections : list WebSocket) (n : Notifier)
    : result unit * Notifier by wf (len (room_value room_name n)) lt :=
notify_loop message room_name living_connections n with inspect (pop_connection room_name n) := {
  | exist _ (Raise e, n1) _ => (Raise e, n1)
  | exist _ (Ok None, n1) _ => setitem room_name (ConnList living_connections) n1
  | exist _ (Ok (Some websocket), n1) Hpop with inspect (await_send_text websocket message n1) := {
      | exist _ (Raise e, n2) _ => (Raise e, n2)
      | exist _ (Ok _, n2) Hsend =>
          notify_loop message room_name (living_connections ++ [websocket]) n2 } }.
Proof.
  (* the send leaves the registry alone *)
  assert (connections n2 = connections n1) as Hc.
  { revert Hsend. unfold await_send_text, emit, raise, mbind, M_bind.
    destruct (send_text websocket message); intros H; by inversion H. }
  unfold room_value at 1. rewrite Hc. clear Hsend Hc.
  (* the pop made the list one shorter *)
  revert Hpop.
  unfold pop_connection, mbind, M_bind, getitem, setitem, mret, M_ret, raise, room_value.
  destruct (connections n !! room_name) as [v|] eqn:E; simpl.
  - destruct (decide (0 < len v)); [|done]. rewrite E.
    unfold list_pop. destruct (reverse (elements_of v)) as [|x r] eqn:R; [done|].
    intros [= <- <-]. simpl. rewrite lookup_insert_eq. simpl.
    unfold len. rewrite <- (length_reverse (elements_of v)), R. simpl.
    rewrite length_reverse. lia.
  - destruct (decide (0 < len EmptyDict)) as [Hpos|]; [|done].
    unfold len in Hpos. simpl in Hpos. lia.
Qed.

(** [Notifier._notify] *)
Definition _notify (message room_name : string) : M unit :=
  notify_loop message room_name [].

(** [Notifier.push]: one turn of [get_notification_generator], from
    [message = yield] through [await self._notify(msg, room_name)] back
    to the yield. *)
Definition push (msg room_name : string) : M unit :=
  asend_resume;;
  until_yield (_notify msg room_name).

End Notifier.

(** ** The session loop *)

(** Result of [json.loads]: a dict, or another JSON value. *)
Inductive parsed :=
| JDict (d : gmap string value)
| JOther.

Section Session.

Variable accept : WebSocket -> option exn.
Variable send_text : WebSocket -> string -> option exn.
(** [json.loads(data)]; [None] when it raises JSONDecodeError. *)
Variable json_loads : string -> option parsed.
(** Whether awaiting [insert_message(message, sender, room)] raises. *)
Variable insert_message : value -> value -> value -> option exn.

(** [d = json.loads(data); d["room_name"] = room_name] *)
Definition load_payload (data room_name : string) : M (gmap string value) :=
  match json_loads data with
  | None => raise JSONDecodeError
  | Some JOther => raise TypeError
  | Some (JDict d) => mret (<["room_name" := VStr room_name]> d)
  end.

(** [d[key]] *)
Definition subscript (d : gmap string value) (key : string) : M value :=
  match d !! key with
  | Some v => mret v
  | None => raise KeyError
  end.

(** Lines 193-194: the conditional expression calls [get_members]
    twice; the result of [websocket not in room_members]. *)
Definition sender_absent (websocket : WebSocket) (room_name : string) : M bool :=
  c ← get_members room_name;
  room_members ← match c with
                 | Some _ => get_members room_name
                 | None => mret (Some (ConnList []))
                 end;
  match room_members with
  | None => raise TypeError
  | Some v => mret (negb (contains websocket v))
  end.

(** The arguments of the call on line 198, evaluated left to right, and
    the call itself. *)
Definition call_insert_message (d : gmap string value) : M (value * value * value) :=
  m ← subscript d "message";
  s ← subscript d "sender";
  r ← subscript d "room_name";
  emit (InsertMessage m s r);;
  mret (m, s, r).

Definition await_insert_message (args : value * value * value) : M unit :=
  match insert_message args.1.1 args.1.2 args.2 with
  | Some e => raise e
  | None => mret tt
  end.

(** The body of [while True] from line 188 on, for a received [data]. *)
Definition loop_body (websocket : WebSocket) (room_name data : string) : M unit :=
  d ← load_payload data room_name;
  absent ← sender_absent websocket room_name;
  (if (absent : bool) then connect accept websocket room_name else mret tt);;
  args ← call_insert_message d;
  await_insert_message args;;
  push send_text data room_name.

(** [except WebSocketDisconnect: notifier.remove(websocket, room_name)] *)
Definition except_disconnect (websocket : WebSocket) (room_name : string)
    (m : M unit) : M unit :=
  fun n =>
    match m n with
    | (Ok a, n') => (Ok a, n')
    | (Raise e, n') =>
        if decide (e = WebSocketDisconnect) then remove websocket room_name n'
        else (Raise e, n')
    end.

(** [while True] over the outcomes of the successive
    [await websocket.receive_text()]; when they are used up the
    coroutine is waiting in the next receive. *)
Fixpoint while_true (websocket : WebSocket) (room_name : string)
    (received : list (result string)) : M unit :=
  match received with
  | [] => mret tt
  | Raise e :: _ => raise e
  | Ok data :: rest =>
      loop_body websocket room_name data;;
      while_true websocket room_name rest
  end.

(** [websocket_endpoint] *)
Definition websocket_endpoint (websocket : WebSocket) (room_name : string)
    (received : list (result string)) : M unit :=
  connect accept websocket room_name;;
  except_disconnect websocket room_name (while_true websocket room_name received).

End Session.

(** The [try] statement of lines 185-201 for a session that is about to
    receive the payloads [received]. *)
Definition try_statement (accept : WebSocket -> option exn)
    (send_text : WebSocket -> string -> option exn)
    (json_loads : string -> option parsed)
    (insert_message : value -> value -> value -> option exn)
    (websocket : WebSocket) (room_name : string)
    (received : list (result string)) : M unit :=
  except_disconnect websocket room_name
    (while_true accept send_text json_loads insert_message websocket room_name received).

(** ** Sessions as coroutines

    Every [await] of [websocket_endpoint] and of the methods it calls is
    a point where the event loop may run another session.  A session is
    a program counter naming the await it is suspended in; resuming it
    with the outcome of that await runs the code up to the next await in
    one piece, on the notifier shared by all sessions. *)

Inductive pc :=
(* in [notifier.connect], at [await websocket.accept()]: of line 184, or
   of line 196 while the payload [data], parsed as [d], is handled *)
| AwaitAccept (reconnect : option (string * gmap string value))
(* line 187 *)
| AwaitReceive
(* line 198 *)
| AwaitInsert (data : string) (args : value * value * value)
(* line 90, inside the generator, called from line 199 *)
| AwaitSend (data : string) (websocket : WebSocket) (living_connections : list WebSocket)
(* the coroutine has returned or raised *)
| Finished (r : result unit).

(** Outcome of the await a session is suspended in. *)
Inductive completion :=
| AcceptDone (r : option exn)
| ReceiveDone (r : result string)
| InsertDone (r : option exn)
| SendDone (r : option exn).

Section Coroutine.

Variable json_loads : string -> option parsed.

(** An exception raised inside the generator body closes the generator
    on its way out. *)
Definition in_generator (body : M pc) : M pc :=
  fun n =>
    match body n with
    | (Ok p, n') => (Ok p, n')
    | (Raise e, n') => asend_raise e n'
    end.

(** [_notify] from the loop test to its next await, or through line 92
    back to the yield and on to the next [receive_text]. *)
Definition notify_resume (data room_name : string)
    (living_connections : list WebSocket) : M pc :=
  in_generator (
    o ← pop_connection room_name;
    match o with
    | Some websocket => mret (AwaitSend data websocket living_connections)
    | None =>
        setitem room_name (ConnList living_connections);;
        asend_yield;;
        mret AwaitReceive
    end).

(** Line 198 up to the await. *)
Definition start_insert (data : string) (d : gmap string value) : M pc :=
  args ← call_insert_message d;
  mret (AwaitInsert data args).

(** The code a session runs when the await it is suspended in
    completes with [c], up to its next await. *)
Definition resume (websocket : WebSocket) (room_name : string) (p : pc)
    (c : completion) : option (M pc) :=
  match p, c with
  | AwaitAccept reconnect, AcceptDone r =>
      Some (match r with
            | Some e => raise e
            | None =>
                emit (Accepted websocket);;
                connect_register websocket room_name;;
                match reconnect with
                | None => mret AwaitReceive
                | Some (data, d) => start_insert data d
                end
            end)
  | AwaitReceive, ReceiveDone r =>
      Some (match r with
            | Raise e => raise e
            | Ok data =>
                d ← load_payload json_loads data room_name;
                absent ← sender_absent websocket room_name;
                if (absent : bool) then mret (AwaitAccept (Some (data, d)))
                else start_insert data d
            end)
  | AwaitInsert data _, InsertDone r =>
      Some (match r with
            | Some e => raise e
            | None => asend_resume;; notify_resume data room_name []
            end)
  | AwaitSend data receiver living_connections, SendDone r =>
      Some (match r with
            | Some e =>
                emit (SendFailed receiver data e);;
                asend_raise e
            | None =>
                emit (Sent receiver data);;
                notify_resume data room_name (living_connections ++ [receiver])
            end)
  | _, _ => None
  end.

(** Where an exception goes: everything but the first [connect] is
    inside the [try] of [websocket_endpoint]. *)
Definition in_try (p : pc) : bool :=
  match p with
  | AwaitAccept None => false
  | _ => true
  end.

Definition settle (websocket : WebSocket) (room_name : string) (guarded : bool)
    (r : result pc * Notifier) : pc * Notifier :=
  match r with
  | (Ok p, n) => (p, n)
  | (Raise e, n) =>
      if guarded && bool_decide (e = WebSocketDisconnect) then
        let (r', n') := remove websocket room_name n in (Finished r', n')
      else (Finished (Raise e), n)
  end.

(** The server: the shared notifier and the sessions; a session's
    WebSocket object is new, and is named by the session's index. *)
Record Server := mkServer {
  notifier : Notifier;
  sessions : list (string * pc)
}.

Inductive action :=
(* [startup_event]: [await notifier.generator.asend(None)] *)
| Startup
(* a client connects to /ws/room_name/...: [websocket_endpoint] starts *)
| Open (room_name : string)
(* the await of the session of [websocket] completes *)
| Resume (websocket : WebSocket) (c : completion).

Definition step (s : Server) (a : action) : option Server :=
  match a with
  | Startup =>
      Some (mkServer (snd (prime_generator (notifier s))) (sessions s))
  | Open room_name =>
      Some (mkServer (notifier s) (sessions s ++ [(room_name, AwaitAccept None)]))
  | Resume websocket c =>
      match sessions s !! websocket with
      | None => None
      | Some (room_name, p) =>
          match resume websocket room_name p c with
          | None => None
          | Some code =>
              let (p', n') :=
                settle websocket room_name (in_try p) (code (notifier s)) in
              Some (mkServer n' (<[websocket := (room_name, p')]> (sessions s)))
          end
      end
  end.

(** A schedule of the event loop. *)
Fixpoint run (s : Server) (schedule : list action) : option Server :=
  match schedule with
  | [] => Some s
  | a :: rest =>
      match step s a with
      | None => None
      | Some s' => run s' rest
      end
  end.

End Coroutine.

Definition Server_init : Server := mkServer Notifier_init [].

Section Solo.

Variable send_text : WebSocket -> string -> option exn.
Variable json_loads : string -> option parsed.

(** The session of [websocket] goes through the sends of its broadcast
    with no other session resumed in between, the transport deciding
    the outcome of each send. *)
Fixpoint solo_sends (fuel : nat) (s : Server) (websocket : WebSocket) : option Server :=
  match fuel with
  | 0 => Some s
  | S fuel' =>
      match sessions s !! websocket with
      | Some (_, AwaitSend data receiver _) =>
          match step json_loads s (Resume websocket (SendDone (send_text receiver data))) with
          | Some s' => solo_sends fuel' s' websocket
          | None => None
          end
      | _ => Some s
      end
  end.

(** The outcome of [await notifier.push(data, room_name)] on line 199
    for the coroutine: on to the next receive, or into the handler. *)
Definition after_push (websocket : WebSocket) (room_name : string)
    (r : result unit * Notifier) : pc * Notifier :=
  settle websocket room_name true
    (match fst r with
     | Ok _ => Ok AwaitReceive
     | Raise e => Raise e
     end, snd r).

(** [await notifier.push(data, room_name)] of a session that no other
    session interrupts: the call, then one send after the other. *)
Definition solo_push (s : Server) (websocket : WebSocket) : option Server :=
  match sessions s !! websocket with
  | Some (room_name, _) =>
      match step json_loads s (Resume websocket (InsertDone None)) with
      | Some s' => solo_sends (len (room_value room_name (notifier s))) s' websocket
      | None => None
      end
  | None => None
  end.

End Solo.

(** ** Startup *)

(** What an awaited call of [startup_event] raises: pymongo's
    CollectionInvalid, which the [except] clause of lines 113-115
    catches, or anything else. *)
Inductive raised :=
| CollectionInvalid
| Other (e : exn).

(** The awaited calls on the database, lines 100-112. *)
Inductive db_call :=
| ConnectToMongo
| GetNosqlDb
| CreateCollection (name : string)
| CreateIndex (collection key : string).

Global Instance db_call_eq_dec : EqDecision db_call.
Proof. solve_decision. Defined.

(** The notifier and the database calls made so far. *)
Definition startup_state : Type := Notifier * list db_call.

Section Startup.

(** Whether an awaited database call raises. *)
Variable db : db_call -> option raised.

Definition await_db (c : db_call) (st : startup_state) : option raised * startup_state :=
  (db c, (st.1, st.2 ++ [c])).

(** [await notifier.generator.asend(None)], line 104 *)
Definition await_asend_None (st : startup_state) : option raised * startup_state :=
  match prime_generator st.1 with
  | (Ok _, n') => (None, (n', st.2))
  | (Raise e, n') => (Some (Other e), (n', st.2))
  end.

(** Statements in sequence: the first one that raises ends the block. *)
Fixpoint block (stmts : list (startup_state -> option raised * startup_state))
    (st : startup_state) : option raised * startup_state :=
  match stmts with
  | [] => (None, st)
  | stmt :: rest =>
      match stmt st with
      | (None, st') => block rest st'
      | (Some e, st') => (Some e, st')
      end
  end.

(** [except pymongo.errors.CollectionInvalid as e: logging.info(e)] *)
Definition except_CollectionInvalid
    (body : startup_state -> option raised * startup_state)
    (st : startup_state) : option raised * startup_state :=
  match body st with
  | (Some CollectionInvalid, st') => (None, st')
  | (r, st') => (r, st')
  end.

(** [startup_event] *)
Definition startup_event (n : Notifier) : option raised * startup_state :=
  block
    [ await_db ConnectToMongo;
      await_db GetNosqlDb;
      except_CollectionInvalid
        (block
           [ await_asend_None;
             await_db (CreateCollection "users");
             await_db (CreateCollection "rooms");
             await_db (CreateIndex "users" "username");
             await_db (CreateIndex "rooms" "room_name") ]) ]
    (n, []).

End Startup.

(** ** Histories of calls on the notifier *)

Inductive call :=
| CallStartup
| CallConnect (websocket : WebSocket) (room_name : string)
| CallRemove (websocket : WebSocket) (room_name : string)
| CallGetMembers (room_name : string)
| CallPush (msg room_name : string).

Global Instance call_eq_dec : EqDecision call.
Proof. solve_decision. Defined.

Section History.

Variable accept : WebSocket -> option exn.
Variable send_text : WebSocket -> string -> option exn.

(** The notifier after a call; an exception ends the coroutine that
    made the call, the notifier lives on. *)
Definition perform (n : Notifier) (c : call) : Notifier :=
  match c with
  | CallStartup => snd (prime_generator n)
  | CallConnect websocket room_name => snd (connect accept websocket room_name n)
  | CallRemove websocket room_name => snd (remove websocket room_name n)
  | CallGetMembers room_name => snd (get_members room_name n)
  | CallPush msg room_name => snd (push send_text msg room_name n)
  end.

(** The notifier made by [Notifier()] after the calls, in order. *)
Definition history (calls : list call) : Notifier :=
  foldl perform Notifier_init calls.

Definition never_joined (room_name : string) (calls : list call) : Prop :=
  forall websocket, CallConnect websocket room_name ∉ calls.

End History.

(** ** Vocabulary of the statements *)

(** The state after [self.connections[room_name] = v]. *)
Definition set_room (room_name : string) (v : members) (n : Notifier) : Notifier :=
  mkNotifier (<[room_name := v]> (connections n)) (generator n) (log n).

(** The state after further events. *)
Definition add_log (evs : list event) (n : Notifier) : Notifier :=
  mkNotifier (connections n) (generator n) (log n ++ evs).

(** Successful deliveries and delivery attempts recorded in a log. *)
Definition is_sent (ev : event) : bool :=
  match ev with
  | Sent _ _ => true
  | _ => false
  end.

Definition is_attempt (ev : event) : bool :=
  match ev with
  | Sent _ _ | SendFailed _ _ _ => true
  | _ => false
  end.

Definition deliveries (evs : list event) : nat := length (filter is_sent evs).

Definition attempts (evs : list event) : nat := length (filter is_attempt evs).

(** The events a call added to the log. *)
Definition new_events (before after : Notifier) : list event :=
  drop (length (log before)) (log after).

(** An event of a broadcast of [text]. *)
Definition send_of (text : string) (ev : event) : Prop :=
  exists websocket,
    ev = Sent websocket text \/ exists e, ev = SendFailed websocket text e.

(** The notifier at the moment line 199 calls [push], when the payload
    parses, the handshake of a re-join is accepted and the store does
    not raise. *)
Definition at_push (websocket : WebSocket) (room_name : string) (m s : value)
    (n : Notifier) : Notifier :=
  add_log [InsertMessage m s (VStr room_name)]
    (if contains websocket (room_value room_name n) then snd (getitem room_name n)
     else set_room room_name
            (ConnList (elements_of (room_value room_name n) ++ [websocket]))
            (add_log [Accepted websocket] n)).

(** A session that has joined its room and has not ended. *)
Definition waiting (p : pc) : bool :=
  match p with
  | AwaitReceive | AwaitInsert _ _ | AwaitSend _ _ _ => true
  | _ => false
  end.

(** A session inside [_notify]. *)
Definition sending (p : pc) : bool :=
  match p with
  | AwaitSend _ _ _ => true
  | _ => false
  end.

(** As long as the generator is not closed, every session that has
    joined and not ended has its connection in the list of its room, or,
    while a broadcast is under way, among the connections that broadcast
    has popped; and a session is inside [_notify] only while the
    generator is running, one at a time. *)
Definition members_kept (s : Server) : Prop :=
  match generator (notifier s) with
  | GenClosed => forall j r p, sessions s !! j = Some (r, p) -> sending p = false
  | GenRunning =>
      exists b room_name data receiver living,
        sessions s !! b = Some (room_name, AwaitSend data receiver living)
        /\ (forall j r p, sessions s !! j = Some (r, p) -> sending p = true -> j = b)
        /\ (forall j r p, sessions s !! j = Some (r, p) -> waiting p = true ->
              j ∈ elements_of (room_value r (notifier s))
              \/ (r = room_name /\ j ∈ receiver :: living))
  | _ =>
      (forall j r p, sessions s !! j = Some (r, p) -> sending p = false)
      /\ (forall j r p, sessions s !! j = Some (r, p) -> waiting p = true ->
            j ∈ elements_of (room_value r (notifier s)))
  end.

(** The generator is as it was and no connection other than [but] has
    left a list. *)
Definition grows (but : option WebSocket) (n n' : Notifier) : Prop :=
  generator n' = generator n
  /\ forall r j, but <> Some j ->
       j ∈ elements_of (room_value r n) -> j ∈ elements_of (room_value r n').

(** What a step outside of [_notify] does, seen from the session
    [websocket] of room [room_name] that takes it. *)
Definition local_ok (websocket : WebSocket) (room_name : string) (n : Notifier)
    (out : result pc * Notifier) : Prop :=
  grows None n (snd out)
  /\ forall p, fst out = Ok p ->
       sending p = false
       /\ (waiting p = true -> websocket ∈ elements_of (room_value room_name (snd out))).

Section Loop.

Variable send_text : WebSocket -> string -> option exn.

Definition sends_ok (message : string) (l : list WebSocket) : Prop :=
  Forall (fun websocket => send_text websocket message = None) l.

(** The equation of the loop: one test, one pop, one send. *)
Definition notify_loop_body (message room_name : string) (living : list WebSocket)
    (p : result (option WebSocket) * Notifier) : result unit * Notifier :=
  match p with
  | (Raise e, n1) => (Raise e, n1)
  | (Ok None, n1) => setitem room_name (ConnList living) n1
  | (Ok (Some websocket), n1) =>
      match await_send_text send_text websocket message n1 with
      | (Raise e, n2) => (Raise e, n2)
      | (Ok _, n2) => notify_loop send_text message room_name (living ++ [websocket]) n2
      end
  end.

(** What the loop does to a room whose stored list, read from its end,
    is [queue]: it sends in that order, stops at the first send that
    raises, and otherwise stores the connections in the order served. *)
Fixpoint drain (message room_name : string) (queue living : list WebSocket)
    (n : Notifier) : result unit * Notifier :=
  match queue with
  | [] => (Ok tt, set_room room_name (ConnList living) n)
  | websocket :: queue' =>
      match send_text websocket message with
      | Some e =>
          (Raise e, set_room room_name (ConnList (reverse queue'))
                      (add_log [SendFailed websocket message e] n))
      | None =>
          drain message room_name queue' (living ++ [websocket])
            (add_log [Sent websocket message] n)
      end
  end.

End Loop.

(** The connections that the sends recorded in a log went to, in order. *)
Definition receivers (evs : list event) : list WebSocket :=
  omap (fun ev =>
          match ev with
          | Sent websocket _ | SendFailed websocket _ _ => Some websocket
          | _ => None
          end) evs.

(** The room a call on the notifier names. *)
Definition call_room (c : call) : option string :=
  match c with
  | CallStartup => None
  | CallConnect _ room_name | CallRemove _ room_name
  | CallGetMembers room_name | CallPush _ room_name => Some room_name
  end.

(** A payload that line 188 or line 198 cannot handle. *)
Definition malformed (json_loads : string -> option parsed) (data : string) : Prop :=
  match json_loads data with
  | None | Some JOther => True
  | Some (JDict d) => d !! "message" = None \/ d !! "sender" = None
  end.

(** ** Transports, payloads and states of the examples *)

Definition healthy : WebSocket -> string -> option exn := fun _ _ => None.

(** A transport on which every send to [bad] raises. *)
Definition broken (bad : WebSocket) : WebSocket -> string -> option exn :=
  fun websocket _ => if decide (websocket = bad) then Some RuntimeError else None.

Definition accepting : WebSocket -> option exn := fun _ => None.

Definition refusing : WebSocket -> option exn := fun _ => Some RuntimeError.

Definition stores : value -> value -> value -> option exn := fun _ _ _ => None.

(** A parser that knows one payload: the message "hi" of sender "A". *)
Definition parse_hi (data : string) : option parsed :=
  if decide (data = "hi from A")
  then Some (JDict {[ "message" := VStr "hi"; "sender" := VStr "A" ]})
  else None.

(** Room "lobby" with members A, B, C (1, 2, 3), generator at its yield. *)
Definition lobby : Notifier :=
  mkNotifier {[ "lobby" := ConnList [1; 2; 3] ]} GenSuspended [].

(** [notifier.connect(websocket, "r")] on a new notifier, once and twice. *)
Definition joined_once : Notifier := snd (connect accepting 7 "r" Notifier_init).

Definition joined_twice : Notifier := snd (connect accepting 7 "r" joined_once).

(** Room "r" with connections 1 and 2, and with connection 2 only. *)
Definition room_r : Notifier :=
  mkNotifier {[ "r" := ConnList [1; 2] ]} GenSuspended [].

Definition room_r_without_1 : Notifier :=
  mkNotifier {[ "r" := ConnList [2] ]} GenSuspended [].

(** Connections 0, 1 and 2 join room "r". Session 0 receives a payload
    and broadcasts it: connection 2 is popped and served, connection 1 is
    popped, and while the send to connection 1 is awaited the client of
    connection 2 disconnects. The broadcast then runs to its end. *)
Definition disconnect_during_broadcast : list action :=
  [ Startup;
    Open "r"; Resume 0 (AcceptDone None);
    Open "r"; Resume 1 (AcceptDone None);
    Open "r"; Resume 2 (AcceptDone None);
    Resume 0 (ReceiveDone (Ok "hi from A"));
    Resume 0 (InsertDone None);
    Resume 0 (SendDone None);
    Resume 2 (ReceiveDone (Raise WebSocketDisconnect));
    Resume 0 (SendDone None);
    Resume 0 (SendDone None) ].

(** The next broadcast of session 0, up to its third send. *)
Definition next_broadcast : list action :=
  [ Resume 0 (ReceiveDone (Ok "hi from A"));
    Resume 0 (InsertDone None);
    Resume 0 (SendDone None);
    Resume 0 (SendDone None) ].

(** A database that is up and empty, and one that already has the
    collection of users. *)
Definition fresh_db : db_call -> option raised := fun _ => None.

Definition used_db : db_call -> option raised :=
  fun c => if decide (c = CreateCollection "users") then Some CollectionInvalid else None.

(** A transport on which every send to [gone] raises the disconnect, and
    a handshake that does. *)
Definition hung_up (gone : WebSocket) : WebSocket -> string -> option exn :=
  fun websocket _ => if decide (websocket = gone) then Some WebSocketDisconnect else None.

Definition closing : WebSocket -> option exn := fun _ => Some WebSocketDisconnect.

(** A parser that also knows a payload with a message and no sender. *)
Definition parse_partial (data : string) : option parsed :=
  if decide (data = "hi from nobody")
  then Some (JDict {[ "message" := VStr "hi" ]})
  else parse_hi data.

(** Connections 0 and 1 join room "r". Session 0 receives a payload and
    broadcasts it; the send to connection 1, the first one popped,
    raises. *)
Definition failed_broadcast : list action :=
  [ Startup;
    Open "r"; Resume 0 (AcceptDone None);
    Open "r"; Resume 1 (AcceptDone None);
    Resume 0 (ReceiveDone (Ok "hi from A"));
    Resume 0 (InsertDone None);
    Resume 0 (SendDone (Some RuntimeError)) ].

(** The notifier after [failed_broadcast]: connection 1 is no longer in
    the list, and its session still waits for a payload. *)
Definition after_failed_broadcast : Notifier :=
  mkNotifier {[ "r" := ConnList [0] ]} GenClosed
    [ Accepted 0; Accepted 1;
      InsertMessage (VStr "hi") (VStr "A") (VStr "r");
      SendFailed 1 "hi from A" RuntimeError ].

(** Session 1 then receives a payload. The handshake of its re-join
    raises, as a second [accept] on an accepted connection does; or it
    returns, and so does the store. *)
Definition refused_rejoin : list action :=
  [ Resume 1 (ReceiveDone (Ok "hi from A"));
    Resume 1 (AcceptDone (Some RuntimeError)) ].


(** Connections 0, 1 and 2 join room "r". *)
Definition three_joined : list action :=
  [ Startup;
    Open "r"; Resume 0 (AcceptDone None);
    Open "r"; Resume 1 (AcceptDone None);
    Open "r"; Resume 2 (AcceptDone None) ].

(** Connections 0, 1 and 2 are in room "r"; session 0 has popped
    connection 2 and is suspended in the send to it. *)
Definition first_send_awaited : Server :=
  mkServer
    (mkNotifier {[ "r" := ConnList [0; 1] ]} GenRunning
       [ Accepted 0; Accepted 1; Accepted 2;
         InsertMessage (VStr "hi") (VStr "A") (VStr "r") ])
    [ ("r", AwaitSend "hi from A" 2 []); ("r", AwaitReceive); ("r", AwaitReceive) ].



(** ** Reading and writing the registry *)

(** Reading a room never fails; it changes the state only by storing
    [{}] under a missing key. *)
Lemma getitem_value room_name n :
  fst (getitem room_name n) = Ok (room_value room_name n).
Proof.
  unfold getitem, room_value. destruct (connections n !! room_name); reflexivity.
Qed.

Lemma getitem_room_value room_name r n :
  room_value r (snd (getitem room_name n)) = room_value r n.
Proof.
  unfold getitem, room_value. destruct (connections n !! room_name) eqn:E; simpl; [done|].
  destruct (decide (room_name = r)) as [->|Hne].
  - by rewrite lookup_insert_eq, E.
  - by rewrite lookup_insert_ne.
Qed.

Lemma getitem_spec room_name n :
  exists n', getitem room_name n = (Ok (room_value room_name n), n')
    /\ (forall r, room_value r n' = room_value r n)
    /\ generator n' = generator n /\ log n' = log n.
Proof.
  exists (snd (getitem room_name n)). split; [|split].
  - pose proof (getitem_value room_name n) as H.
    destruct (getitem room_name n) as [res n']. simpl in *. by rewrite H.
  - intros r. apply getitem_room_value.
  - unfold getitem. by destruct (connections n !! room_name).
Qed.

Lemma getitem_eq room_name n :
  getitem room_name n =
  (Ok (room_value room_name n), snd (getitem room_name n)).
Proof.
  pose proof (getitem_value room_name n) as H.
  destruct (getitem room_name n) as [r n']. simpl in *. by rewrite H.
Qed.

Lemma getitem_idem room_name n :
  getitem room_name (snd (getitem room_name n)) =
  (Ok (room_value room_name n), snd (getitem room_name n)).
Proof.
  unfold getitem, room_value. destruct (connections n !! room_name) eqn:E; simpl.
  - by rewrite E.
  - by rewrite lookup_insert_eq.
Qed.

Lemma getitem_frame room_name n :
  generator (snd (getitem room_name n)) = generator n
  /\ log (snd (getitem room_name n)) = log n.
Proof. unfold getitem. by destruct (connections n !! room_name). Qed.

Lemma set_room_set_room room_name v v' n :
  set_room room_name v (set_room room_name v' n) = set_room room_name v n.
Proof. unfold set_room. simpl. by rewrite insert_insert_eq. Qed.

Lemma set_room_add_log room_name v evs n :
  set_room room_name v (add_log evs n) = add_log evs (set_room room_name v n).
Proof. reflexivity. Qed.

Lemma room_value_set_room room_name v n :
  room_value room_name (set_room room_name v n) = v.
Proof. unfold room_value, set_room. simpl. by rewrite lookup_insert_eq. Qed.

Lemma room_value_set_room_ne room_name r v n :
  room_name ≠ r -> room_value r (set_room room_name v n) = room_value r n.
Proof. intros H. unfold room_value, set_room. simpl. by rewrite lookup_insert_ne. Qed.


Lemma getitem_then_set room_name v n :
  set_room room_name v (snd (getitem room_name n)) = set_room room_name v n.
Proof.
  unfold getitem, set_room. destruct (connections n !! room_name); simpl; [done|].
  by rewrite insert_insert_eq.
Qed.

Lemma getitem_present room_name n l :
  room_value room_name n = ConnList l -> getitem room_name n = (Ok (ConnList l), n).
Proof.
  unfold room_value, getitem. destruct (connections n !! room_name); simpl; [|done].
  by intros ->.
Qed.

Lemma getitem_set_room room_name v n :
  getitem room_name (set_room room_name v n) = (Ok v, set_room room_name v n).
Proof. unfold getitem, set_room. simpl. by rewrite lookup_insert_eq. Qed.

Lemma list_pop_snoc l x : list_pop (l ++ [x]) = Some (l, x).
Proof.
  unfold list_pop. rewrite reverse_snoc. by rewrite reverse_involutive.
Qed.

Lemma list_pop_nil : list_pop [] = None.
Proof. reflexivity. Qed.

Lemma list_remove_None x l : list_remove x l = None <-> x ∉ l.
Proof.
  induction l as [|y l IH]; simpl.
  - split; [intros _; apply not_elem_of_nil | done].
  - destruct (decide (x = y)) as [->|Hne].
    + split; [done|]. intros H. exfalso. apply H. left.
    + destruct (list_remove x l) eqn:E.
      * split; [done|]. intros H. exfalso. apply H. right.
        destruct (decide (x ∈ l)) as [Hin|Hnin]; [done|].
        by apply IH in Hnin.
      * split; [|done]. intros _ Hin. apply elem_of_cons in Hin as [?|Hin]; [done|].
        by apply (proj1 IH).
Qed.

Lemma pop_connection_snoc room_name n l websocket :
  room_value room_name n = ConnList (l ++ [websocket]) ->
  pop_connection room_name n = (Ok (Some websocket), set_room room_name (ConnList l) n).
Proof.
  intros Hv. unfold pop_connection, mbind, M_bind.
  rewrite (getitem_present _ _ _ Hv).
  destruct (decide (0 < len (ConnList (l ++ [websocket])))) as [_|Hn].
  - rewrite (getitem_present _ _ _ Hv). simpl. by rewrite list_pop_snoc.
  - exfalso. apply Hn. unfold len. simpl. rewrite length_app. simpl. lia.
Qed.

Lemma pop_connection_empty room_name n :
  elements_of (room_value room_name n) = [] ->
  pop_connection room_name n = (Ok None, snd (getitem room_name n)).
Proof.
  intros Hv. unfold pop_connection, mbind, M_bind.
  destruct (getitem_spec room_name n) as (n' & E & _). rewrite E. simpl.
  destruct (decide (0 < len (room_value room_name n))) as [Hpos|_]; [|done].
  unfold len in Hpos. rewrite Hv in Hpos. simpl in Hpos. lia.
Qed.

(** ** The loop of [_notify] *)

Section LoopFacts.

Variable send_text : WebSocket -> string -> option exn.

Lemma notify_loop_step message room_name living n :
  notify_loop send_text message room_name living n =
  notify_loop_body send_text message room_name living (pop_connection room_name n).
Proof.
  rewrite notify_loop_unfold_eq. unfold notify_loop_unfold.
  generalize (inspect (pop_connection room_name n)). intros [p Hp].
  rewrite (f_equal (notify_loop_body send_text message room_name living) Hp).
  destruct p as [[[ws|]|e] n1]; simpl; [|done..].
  by destruct (await_send_text send_text ws message n1) as [[[]|e] n2].
Qed.

Lemma drain_set_room message room_name queue living v n :
  drain send_text message room_name queue living (set_room room_name v n) =
  drain send_text message room_name queue living n.
Proof.
  revert living n. induction queue as [|ws queue IH]; intros living n; simpl.
  - by rewrite set_room_set_room.
  - destruct (send_text ws message).
    + by rewrite <- set_room_add_log, set_room_set_room.
    + by rewrite <- set_room_add_log, IH.
Qed.

Lemma notify_loop_drain message room_name queue living n :
  elements_of (room_value room_name n) = reverse queue ->
  notify_loop send_text message room_name living n =
  drain send_text message room_name queue living n.
Proof.
  revert living n. induction queue as [|ws queue IH]; intros living n Hv.
  - rewrite notify_loop_step, pop_connection_empty by done. simpl.
    unfold setitem. f_equal. apply getitem_then_set.
  - rewrite reverse_cons in Hv.
    assert (room_value room_name n = ConnList (reverse queue ++ [ws])) as Hl.
    { destruct (room_value room_name n); simpl in Hv; [|by rewrite Hv].
      by destruct (reverse queue). }
    rewrite notify_loop_step, (pop_connection_snoc _ _ _ _ Hl). simpl.
    unfold await_send_text. destruct (send_text ws message) as [e|]; simpl.
    + reflexivity.
    + unfold emit. simpl. rewrite IH.
      * apply (drain_set_room message room_name queue (living ++ [ws])
                 (ConnList (reverse queue)) (add_log [Sent ws message] n)).
      * unfold room_value. simpl. by rewrite lookup_insert_eq.
Qed.

(** [_notify] on a room in terms of its stored list. *)
Lemma _notify_drain message room_name n :
  _notify send_text message room_name n =
  drain send_text message room_name (reverse (elements_of (room_value room_name n))) [] n.
Proof.
  unfold _notify. apply notify_loop_drain. by rewrite reverse_involutive.
Qed.

Lemma drain_all_ok message room_name queue living n :
  sends_ok send_text message queue ->
  drain send_text message room_name queue living n =
  (Ok tt, set_room room_name (ConnList (living ++ queue))
            (add_log (map (fun websocket => Sent websocket message) queue) n)).
Proof.
  revert living n. induction queue as [|ws queue IH]; intros living n Hok; simpl.
  - rewrite app_nil_r. unfold add_log. rewrite app_nil_r. by destruct n.
  - inversion Hok as [|? ? Hws Hq]; subst. rewrite Hws, IH by done.
    rewrite <- app_assoc. unfold add_log, set_room. simpl.
    by rewrite <- app_assoc.
Qed.

Lemma drain_first_failure message room_name served failing rest e living n :
  sends_ok send_text message served ->
  send_text failing message = Some e ->
  drain send_text message room_name (served ++ failing :: rest) living n =
  (Raise e, set_room room_name (ConnList (reverse rest))
              (add_log (map (fun websocket => Sent websocket message) served
                          ++ [SendFailed failing message e]) n)).
Proof.
  revert living n. induction served as [|ws served IH]; intros living n Hok Hf; simpl.
  - by rewrite Hf.
  - inversion Hok as [|? ? Hws Hq]; subst. rewrite Hws, IH by done.
    unfold add_log, set_room. simpl. by rewrite <- app_assoc.
Qed.

(** [_notify] when no send raises. *)
Lemma _notify_all_ok message room_name n :
  sends_ok send_text message (elements_of (room_value room_name n)) ->
  _notify send_text message room_name n =
  (Ok tt, set_room room_name (ConnList (reverse (elements_of (room_value room_name n))))
            (add_log (map (fun websocket => Sent websocket message)
                        (reverse (elements_of (room_value room_name n)))) n)).
Proof.
  intros Hok. rewrite _notify_drain, drain_all_ok; [done|].
  unfold sends_ok in *. rewrite Forall_forall in *. intros x Hx.
  apply Hok. by apply elem_of_reverse.
Qed.

(** [_notify] when the stored list is [before ++ failing :: after], the
    send to [failing] raises and the sends to [after] do not. *)
Lemma _notify_first_failure message room_name n before failing after e :
  elements_of (room_value room_name n) = before ++ failing :: after ->
  sends_ok send_text message after ->
  send_text failing message = Some e ->
  _notify send_text message room_name n =
  (Raise e, set_room room_name (ConnList before)
              (add_log (map (fun websocket => Sent websocket message) (reverse after)
                          ++ [SendFailed failing message e]) n)).
Proof.
  intros Hl Hok Hf. rewrite _notify_drain, Hl.
  rewrite reverse_app, reverse_cons, <- app_assoc. simpl.
  rewrite (drain_first_failure message room_name (reverse after) failing (reverse before) e);
    [by rewrite reverse_involutive| |done].
  unfold sends_ok in *. rewrite Forall_forall in *. intros x Hx.
  apply Hok. by apply elem_of_reverse.
Qed.

Lemma drain_room_value_ne message room_name r queue living n :
  room_name <> r ->
  room_value r (snd (drain send_text message room_name queue living n)) = room_value r n.
Proof.
  intros Hne. revert living n. induction queue as [|ws queue IH]; intros living n; simpl.
  - by apply room_value_set_room_ne.
  - destruct (send_text ws message); simpl.
    + by rewrite room_value_set_room_ne.
    + by rewrite IH.
Qed.

Lemma _notify_room_value_ne message room_name r n :
  room_name <> r ->
  room_value r (snd (_notify send_text message room_name n)) = room_value r n.
Proof. intros Hne. rewrite _notify_drain. by apply drain_room_value_ne. Qed.

Lemma _notify_no_member message room_name n :
  elements_of (room_value room_name n) = [] ->
  _notify send_text message room_name n = (Ok tt, set_room room_name (ConnList []) n).
Proof. intros Hv. by rewrite _notify_drain, Hv. Qed.

Lemma drain_log message room_name queue living n :
  exists sends,
    log (snd (drain send_text message room_name queue living n)) = log n ++ sends
    /\ Forall (send_of message) sends.
Proof.
  revert living n. induction queue as [|ws queue IH]; intros living n; simpl.
  - exists []. by rewrite app_nil_r.
  - destruct (send_text ws message) as [e|]; simpl.
    + exists [SendFailed ws message e]. split; [done|].
      constructor; [|done]. exists ws. right. by exists e.
    + destruct (IH (living ++ [ws]) (add_log [Sent ws message] n)) as (sends & Hl & Hf).
      exists (Sent ws message :: sends). split.
      * rewrite Hl. simpl. by rewrite <- app_assoc.
      * constructor; [|done]. exists ws. by left.
Qed.

(** [push] on a generator that waits at its yield. *)
Lemma push_suspended msg room_name n :
  generator n = GenSuspended ->
  push send_text msg room_name n =
  until_yield (_notify send_text msg room_name)
    (mkNotifier (connections n) GenRunning (log n)).
Proof.
  intros Hg. unfold push, mbind, M_bind, asend_resume. by rewrite Hg.
Qed.

(** [push] only adds sends of its message to the log. *)
Lemma push_log msg room_name n :
  exists sends,
    log (snd (push send_text msg room_name n)) = log n ++ sends
    /\ Forall (send_of msg) sends.
Proof.
  unfold push, mbind, M_bind, asend_resume, raise, set_generator.
  destruct (generator n); simpl; try (exists []; by rewrite app_nil_r).
  unfold until_yield. rewrite _notify_drain.
  destruct (drain_log msg room_name
              (reverse (elements_of (room_value room_name
                 (mkNotifier (connections n) GenRunning (log n))))) []
              (mkNotifier (connections n) GenRunning (log n))) as (sends & Hl & Hf).
  exists sends. split; [|done].
  destruct (drain send_text msg room_name _ _ _) as [[[]|e] n']; simpl in *; done.
Qed.

End LoopFacts.

Lemma push_all_ok send_text msg room_name n :
  generator n = GenSuspended ->
  sends_ok send_text msg (elements_of (room_value room_name n)) ->
  push send_text msg room_name n =
  (Ok tt, mkNotifier
            (<[room_name := ConnList (reverse (elements_of (room_value room_name n)))]>
               (connections n))
            GenSuspended
            (log n ++ map (fun websocket => Sent websocket msg)
                        (reverse (elements_of (room_value room_name n))))).
Proof.
  intros Hg Hok. rewrite (push_suspended _ _ _ _ Hg). unfold until_yield.
  by rewrite _notify_all_ok.
Qed.

Lemma deliveries_sent message l :
  deliveries (map (fun websocket => Sent websocket message) l) = length l.
Proof. unfold deliveries. induction l as [|x l IH]; simpl; [done|]. by rewrite IH. Qed.

Lemma attempts_sent message l :
  attempts (map (fun websocket => Sent websocket message) l) = length l.
Proof. unfold attempts. induction l as [|x l IH]; simpl; [done|]. by rewrite IH. Qed.

Lemma deliveries_app evs evs' : deliveries (evs ++ evs') = deliveries evs + deliveries evs'.
Proof. unfold deliveries. by rewrite filter_app, length_app. Qed.

Lemma attempts_app evs evs' : attempts (evs ++ evs') = attempts evs + attempts evs'.
Proof. unfold attempts. by rewrite filter_app, length_app. Qed.

(** ** Broadcast *)

(** On a generator that does not wait at its yield, [asend] raises
    before the body runs: nothing is sent and nothing changes. *)
Lemma push_not_suspended send_text msg room_name n :
  generator n <> GenSuspended ->
  push send_text msg room_name n =
  (Raise match generator n with
         | GenCreated => TypeError
         | GenRunning => RuntimeError
         | _ => StopAsyncIteration
         end, n).
Proof.
  intros Hg. unfold push, mbind, M_bind, asend_resume. by destruct (generator n).
Qed.

(** C1, as the code has it. A broadcast does not contain a member's send
    failure. [push] is the broadcast that no other session interrupts:
    no connection joins or leaves the room while a send is awaited. On a
    generator waiting at its yield: when no send raises, [push] returns
    normally and the message is sent to every member of the room; when
    the stored list is [before ++ failing :: after], with the send to
    [failing] raising [e] and no send to [after] raising, [push] raises
    [e] to its caller (StopIteration and StopAsyncIteration as
    RuntimeError), the members of [after] have been sent the message,
    no send is attempted to the members of [before], which are what is
    left of the room's list, and the generator is closed. On a
    generator in any other state [push] raises and does nothing else:
    TypeError when the generator has not been started, RuntimeError
    while it is running, StopAsyncIteration once it is closed. *)
Theorem push_propagates_send_failure send_text msg room_name n :
  (generator n = GenSuspended ->
   (sends_ok send_text msg (elements_of (room_value room_name n)) ->
    fst (push send_text msg room_name n) = Ok tt
    /\ new_events n (snd (push send_text msg room_name n)) =
         map (fun websocket => Sent websocket msg)
           (reverse (elements_of (room_value room_name n))))
   /\ (forall before failing after e,
         elements_of (room_value room_name n) = before ++ failing :: after ->
         sends_ok send_text msg after ->
         send_text failing msg = Some e ->
         fst (push send_text msg room_name n) = Raise (generator_exit e)
         /\ new_events n (snd (push send_text msg room_name n)) =
              map (fun websocket => Sent websocket msg) (reverse after)
              ++ [SendFailed failing msg e]
         /\ room_value room_name (snd (push send_text msg room_name n)) = ConnList before
         /\ generator (snd (push send_text msg room_name n)) = GenClosed))
  /\ (generator n <> GenSuspended ->
      push send_text msg room_name n =
      (Raise match generator n with
             | GenCreated => TypeError
             | GenRunning => RuntimeError
             | _ => StopAsyncIteration
             end, n)).
Proof.
  split; [|apply push_not_suspended].
  intros Hg. rewrite (push_suspended _ _ _ _ Hg). unfold until_yield. split.
  - intros Hok. rewrite _notify_all_ok by done. simpl. split; [done|].
    unfold new_events. simpl. by rewrite drop_app_length.
  - intros before failing after e Hl Hok Hf.
    rewrite (_notify_first_failure _ _ _ _ before failing after e) by done.
    simpl. split; [done|]. split; [|split; [|done]].
    + unfold new_events. simpl. by rewrite drop_app_length.
    + unfold room_value. simpl. by rewrite lookup_insert_eq.
Qed.

Lemma push_propagates_send_failure_witness :
  fst (push (broken 2) "hello" "lobby" lobby) = Raise RuntimeError
  /\ new_events lobby (snd (push (broken 2) "hello" "lobby" lobby)) =
       [Sent 3 "hello"; SendFailed 2 "hello" RuntimeError]
  /\ room_value "lobby" (snd (push (broken 2) "hello" "lobby" lobby)) = ConnList [1]
  /\ generator (snd (push (broken 2) "hello" "lobby" lobby)) = GenClosed.
Proof.
  apply (proj2 (proj1 (push_propagates_send_failure (broken 2) "hello" "lobby" lobby)
                  eq_refl)
           [1] 2 [3] RuntimeError).
  - reflexivity.
  - repeat constructor.
  - reflexivity.
Defined.

(** C1 as stated fails: B's send raises, [push] raises to its caller, A
    gets no delivery, and C, which was served, is dropped with B. *)
Lemma push_raises_when_a_send_fails :
  fst (push (broken 2) "hello" "lobby" lobby) = Raise RuntimeError
  /\ log (snd (push (broken 2) "hello" "lobby" lobby)) =
       [Sent 3 "hello"; SendFailed 2 "hello" RuntimeError]
  /\ room_value "lobby" (snd (push (broken 2) "hello" "lobby" lobby)) = ConnList [1].
Proof. vm_compute. done. Qed.

(** C2, as the code has it. One run of [_notify] that no other session
    interrupts (no connection joins or leaves the room while a send is
    awaited), on a room that stores the list [l]: when no send raises it makes [length l] deliveries in
    [length l] attempts and leaves [length l] members (with no member,
    it succeeds without any attempt); when [l] is
    [before ++ failing :: after], the send to [failing] raises and no
    send to [after] does, it stops there: [length after] deliveries, one
    failed attempt, an exception, and [before] left as the room's list. *)
Theorem _notify_delivery_count send_text message room_name n l :
  elements_of (room_value room_name n) = l ->
  (sends_ok send_text message l ->
   fst (_notify send_text message room_name n) = Ok tt
   /\ deliveries (new_events n (snd (_notify send_text message room_name n))) = length l
   /\ attempts (new_events n (snd (_notify send_text message room_name n))) = length l
   /\ len (room_value room_name (snd (_notify send_text message room_name n))) = length l)
  /\ (forall before failing after e,
        l = before ++ failing :: after ->
        sends_ok send_text message after ->
        send_text failing message = Some e ->
        fst (_notify send_text message room_name n) = Raise e
        /\ deliveries (new_events n (snd (_notify send_text message room_name n)))
           = length after
        /\ attempts (new_events n (snd (_notify send_text message room_name n)))
           = S (length after)
        /\ room_value room_name (snd (_notify send_text message room_name n))
           = ConnList before).
Proof.
  intros Hl. split.
  - intros Hok. rewrite <- Hl in Hok. rewrite _notify_all_ok by done. simpl.
    unfold new_events. simpl. rewrite drop_app_length, Hl.
    rewrite deliveries_sent, attempts_sent, length_reverse.
    unfold room_value, len. simpl. rewrite lookup_insert_eq. simpl.
    by rewrite length_reverse.
  - intros before failing after e -> Hok Hf.
    rewrite (_notify_first_failure _ _ _ _ before failing after e) by done. simpl.
    unfold new_events. simpl. rewrite drop_app_length.
    rewrite deliveries_app, attempts_app, deliveries_sent, attempts_sent, length_reverse.
    unfold room_value. simpl. rewrite lookup_insert_eq. simpl.
    unfold deliveries, attempts. simpl. repeat split; lia.
Qed.

Lemma _notify_delivery_count_witness :
  fst (_notify (broken 2) "hello" "lobby" lobby) = Raise RuntimeError
  /\ deliveries (new_events lobby (snd (_notify (broken 2) "hello" "lobby" lobby))) = 1
  /\ attempts (new_events lobby (snd (_notify (broken 2) "hello" "lobby" lobby))) = 2
  /\ room_value "lobby" (snd (_notify (broken 2) "hello" "lobby" lobby)) = ConnList [1].
Proof.
  apply (proj2 (_notify_delivery_count (broken 2) "hello" "lobby" lobby [1; 2; 3] eq_refl)
           [1] 2 [3] RuntimeError).
  - reflexivity.
  - repeat constructor.
  - reflexivity.
Defined.

(** C2 as stated fails. On the scenario of the specification, of A, B,
    C only C's send raises (N = 3, K = 1): C is tried first and neither
    A nor B is sent the message. When it is B's send that raises, C is
    served, A is not, and A alone is left in the room. *)
Lemma _notify_stops_at_first_failure :
  len (room_value "lobby" lobby) = 3
  /\ length (filter (fun websocket => bool_decide (broken 3 websocket "hello" <> None))
               (elements_of (room_value "lobby" lobby))) = 1
  /\ deliveries (new_events lobby (snd (_notify (broken 3) "hello" "lobby" lobby))) = 0
  /\ fst (_notify (broken 3) "hello" "lobby" lobby) = Raise RuntimeError
  /\ length (filter (fun websocket => bool_decide (broken 2 websocket "hello" <> None))
               (elements_of (room_value "lobby" lobby))) = 1
  /\ deliveries (new_events lobby (snd (_notify (broken 2) "hello" "lobby" lobby))) = 1
  /\ room_value "lobby" (snd (_notify (broken 2) "hello" "lobby" lobby)) = ConnList [1].
Proof. vm_compute. done. Qed.




(** ** Joining, leaving, listing *)

(** What [connect] does to the registry once the handshake is through:
    the connection goes to the end of the room's list, whatever the list
    holds. *)
Lemma connect_register_spec websocket room_name n :
  connect_register websocket room_name n =
  (Ok tt, set_room room_name
            (ConnList (elements_of (room_value room_name n) ++ [websocket])) n).
Proof.
  unfold connect_register, mbind, M_bind.
  rewrite getitem_eq.
  destruct (decide (room_value room_name n = EmptyDict)) as [He|Hne].
  - unfold setitem. fold (set_room room_name (ConnList []) (snd (getitem room_name n))).
    rewrite getitem_set_room. unfold setitem.
    fold (set_room room_name (ConnList ([] ++ [websocket]))
            (set_room room_name (ConnList []) (snd (getitem room_name n)))).
    by rewrite set_room_set_room, getitem_then_set, He.
  - rewrite getitem_idem.
    destruct (room_value room_name n) as [|l] eqn:Hv; [done|].
    assert (getitem room_name n = (Ok (ConnList l), n)) as Hg
      by by apply getitem_present.
    rewrite Hg. simpl.
    destruct (decide (len (ConnList l) = 0)) as [Hz|Hnz].
    + destruct l; [|done]. unfold setitem.
      fold (set_room room_name (ConnList []) n). rewrite getitem_set_room.
      fold (set_room room_name (ConnList ([] ++ [websocket]))
              (set_room room_name (ConnList []) n)).
      by rewrite set_room_set_room.
    + unfold mret, M_ret. by rewrite Hg.
Qed.

Lemma connect_spec accept websocket room_name n :
  accept websocket = None ->
  connect accept websocket room_name n =
  (Ok tt, set_room room_name
            (ConnList (elements_of (room_value room_name n) ++ [websocket]))
            (add_log [Accepted websocket] n)).
Proof.
  intros Ha. unfold connect, await_accept, mbind, M_bind. rewrite Ha.
  unfold emit. by rewrite connect_register_spec.
Qed.

Lemma connect_refused accept websocket room_name n e :
  accept websocket = Some e ->
  connect accept websocket room_name n = (Raise e, n).
Proof.
  intros Ha. unfold connect, await_accept, mbind, M_bind. by rewrite Ha.
Qed.

Lemma remove_absent websocket room_name n :
  websocket ∉ elements_of (room_value room_name n) ->
  remove websocket room_name n =
  (Raise (match room_value room_name n with
          | EmptyDict => AttributeError
          | ConnList _ => ValueError
          end), snd (getitem room_name n)).
Proof.
  intros Hnin. unfold remove, mbind, M_bind. rewrite getitem_eq.
  destruct (room_value room_name n) as [|l]; [done|].
  simpl in Hnin. apply list_remove_None in Hnin. by rewrite Hnin.
Qed.




(** C4, as the code has it. [remove] of a connection that is not in the
    room's list raises and changes no room's members. When the room
    holds a list, [list.remove] raises ValueError and the notifier is as
    it was. When the room holds the empty dict made by the default
    factory, which has no [remove], the call raises AttributeError; for
    a room that has no entry yet, reading it has stored that empty dict
    first. *)
Theorem remove_absent_raises websocket room_name n :
  websocket ∉ elements_of (room_value room_name n) ->
  (forall l, room_value room_name n = ConnList l ->
     remove websocket room_name n = (Raise ValueError, n))
  /\ (room_value room_name n = EmptyDict ->
      fst (remove websocket room_name n) = Raise AttributeError)
  /\ (connections n !! room_name = None ->
      remove websocket room_name n
      = (Raise AttributeError, set_room room_name EmptyDict n))
  /\ (forall r, room_value r (snd (remove websocket room_name n)) = room_value r n)
  /\ generator (snd (remove websocket room_name n)) = generator n
  /\ log (snd (remove websocket room_name n)) = log n.
Proof.
  intros Hnin. rewrite (remove_absent _ _ _ Hnin). cbn [fst snd].
  split; [|split; [|split; [|split; [|split]]]].
  - intros l Hv. by rewrite Hv, (getitem_present _ _ _ Hv).
  - by intros ->.
  - intros Hnone. unfold room_value, getitem. by rewrite Hnone.
  - intros r. apply getitem_room_value.
  - apply getitem_frame.
  - apply getitem_frame.
Qed.

Lemma remove_absent_raises_witness :
  (forall l, room_value "r" joined_once = ConnList l ->
     remove 8 "r" joined_once = (Raise ValueError, joined_once))
  /\ (room_value "r" joined_once = EmptyDict ->
      fst (remove 8 "r" joined_once) = Raise AttributeError)
  /\ (connections joined_once !! "r" = None ->
      remove 8 "r" joined_once
      = (Raise AttributeError, set_room "r" EmptyDict joined_once))
  /\ (forall r, room_value r (snd (remove 8 "r" joined_once)) = room_value r joined_once)
  /\ generator (snd (remove 8 "r" joined_once)) = generator joined_once
  /\ log (snd (remove 8 "r" joined_once)) = log joined_once.
Proof.
  apply (remove_absent_raises 8 "r" joined_once).
  change (elements_of (room_value "r" joined_once)) with [7].
  intros H. apply list_elem_of_singleton in H. lia.
Defined.

(** C4 as stated fails: leaving a room that was never joined raises
    AttributeError, and leaving a room one is not in raises ValueError. *)
Lemma remove_of_absent_is_an_error :
  fst (remove 7 "never" Notifier_init) = Raise AttributeError
  /\ fst (remove 8 "r" joined_once) = Raise ValueError.
Proof. split; reflexivity. Qed.

(** C9. [get_members] on a room that has no entry stores the empty dict
    of the default factory under that room name, so the registry is not
    what it was; the entries of all other rooms, the generator and the
    log are as before. *)
Theorem get_members_creates_entry room_name n :
  connections n !! room_name = None ->
  fst (get_members room_name n) = Ok (Some EmptyDict)
  /\ connections (snd (get_members room_name n)) = <[room_name := EmptyDict]> (connections n)
  /\ connections (snd (get_members room_name n)) !! room_name = Some EmptyDict
  /\ connections (snd (get_members room_name n)) <> connections n
  /\ (forall r, r <> room_name ->
        connections (snd (get_members room_name n)) !! r = connections n !! r)
  /\ generator (snd (get_members room_name n)) = generator n
  /\ log (snd (get_members room_name n)) = log n.
Proof.
  intros Hnone. unfold get_members, getitem. rewrite Hnone. simpl.
  split; [done|]. split; [done|]. split; [by rewrite lookup_insert_eq|].
  split; [|split; [|done]].
  - intros Heq. assert (connections n !! room_name = Some EmptyDict) as H.
    { rewrite <- Heq. by rewrite lookup_insert_eq. }
    by rewrite Hnone in H.
  - intros r Hr. by rewrite lookup_insert_ne.
Qed.

Lemma get_members_creates_entry_witness :
  fst (get_members "r" Notifier_init) = Ok (Some EmptyDict)
  /\ connections (snd (get_members "r" Notifier_init)) =
       <["r" := EmptyDict]> (connections Notifier_init)
  /\ connections (snd (get_members "r" Notifier_init)) !! "r" = Some EmptyDict
  /\ connections (snd (get_members "r" Notifier_init)) <> connections Notifier_init
  /\ (forall r, r <> "r" ->
        connections (snd (get_members "r" Notifier_init)) !! r =
        connections Notifier_init !! r)
  /\ generator (snd (get_members "r" Notifier_init)) = generator Notifier_init
  /\ log (snd (get_members "r" Notifier_init)) = log Notifier_init.
Proof. apply (get_members_creates_entry "r" Notifier_init). reflexivity. Defined.

Section HistoryFacts.

Variable accept : WebSocket -> option exn.
Variable send_text : WebSocket -> string -> option exn.

(** A room without members stays without members under every call but
    a [connect] to it. *)
Lemma perform_keeps_empty room_name n c :
  elements_of (room_value room_name n) = [] ->
  (forall websocket, c <> CallConnect websocket room_name) ->
  elements_of (room_value room_name (perform accept send_text n c)) = [].
Proof.
  intros Hv Hc. destruct c as [|ws r|ws r|r|msg r]; simpl.
  - unfold prime_generator, set_generator, asend_raise, raise, mbind, M_bind.
    by destruct (generator n).
  - destruct (accept ws) as [e|] eqn:Ha.
    + by rewrite (connect_refused _ _ _ _ _ Ha).
    + rewrite (connect_spec _ _ _ _ Ha). simpl.
      rewrite room_value_set_room_ne; [done|]. intros ->. by apply (Hc ws).
  - unfold remove, mbind, M_bind. rewrite getitem_eq.
    destruct (room_value r n) as [|l] eqn:Hr; simpl.
    + by rewrite getitem_room_value.
    + destruct (list_remove ws l) as [l'|] eqn:Hl; simpl.
      * destruct (decide (r = room_name)) as [->|Hne].
        -- rewrite Hr in Hv. simpl in Hv. by subst.
        -- unfold setitem. simpl.
           fold (set_room r (ConnList l') (snd (getitem r n))).
           rewrite (room_value_set_room_ne r room_name _ _ Hne).
           by rewrite getitem_room_value.
      * by rewrite getitem_room_value.
  - unfold get_members. rewrite getitem_eq. simpl. by rewrite getitem_room_value.
  - unfold push, mbind, M_bind, asend_resume, raise, set_generator.
    destruct (generator n); simpl; try done.
    unfold until_yield.
    destruct (decide (r = room_name)) as [->|Hne].
    + rewrite _notify_no_member by done. unfold room_value. simpl.
      by rewrite lookup_insert_eq.
    + pose proof (_notify_room_value_ne send_text msg r room_name
                    (mkNotifier (connections n) GenRunning (log n)) Hne) as Hf.
      destruct (_notify send_text msg r _) as [[[]|e] n']; simpl in *;
        unfold room_value in *; simpl in *; by rewrite Hf.
Qed.

Lemma history_never_joined room_name calls :
  never_joined room_name calls ->
  elements_of (room_value room_name (history accept send_text calls)) = [].
Proof.
  unfold history. induction calls as [|c calls IH] using rev_ind; intros Hnj.
  - reflexivity.
  - rewrite foldl_app. simpl. apply perform_keeps_empty.
    + apply IH. intros ws Hin. apply (Hnj ws). apply elem_of_app. by left.
    + intros ws ->. apply (Hnj ws). apply elem_of_app. right. left.
Qed.

End HistoryFacts.

(** C5. After any history of calls on a new notifier in which the room
    was never joined, [get_members] of that room does not raise and does
    not take its except branch: it returns a container without elements
    (the empty dict of the default factory, or an empty list). *)
Theorem get_members_of_unknown_room accept send_text room_name calls :
  never_joined room_name calls ->
  exists v,
    fst (get_members room_name (history accept send_text calls)) = Ok (Some v)
    /\ elements_of v = []
    /\ len v = 0
    /\ forall websocket, contains websocket v = false.
Proof.
  intros Hnj. pose proof (history_never_joined accept send_text _ _ Hnj) as Hv.
  exists (room_value room_name (history accept send_text calls)).
  unfold get_members. rewrite getitem_eq. simpl. split; [done|]. split; [done|].
  unfold len, contains. rewrite Hv. split; [done|]. intros ws.
  apply bool_decide_eq_false. apply not_elem_of_nil.
Qed.

Lemma get_members_of_unknown_room_witness :
  exists v,
    fst (get_members "quiet"
           (history accepting healthy
              [CallStartup; CallConnect 1 "r"; CallPush "hello" "quiet";
               CallRemove 1 "quiet"; CallPush "hello" "r"])) = Ok (Some v)
    /\ elements_of v = []
    /\ len v = 0
    /\ forall websocket, contains websocket v = false.
Proof.
  apply (get_members_of_unknown_room accepting healthy "quiet").
  intros websocket H. vm_compute in H.
  repeat (apply elem_of_cons in H as [H|H]; [discriminate H|]).
  by apply not_elem_of_nil in H.
Defined.

(** ** One turn of the session loop *)

Section SessionFacts.

Variable accept : WebSocket -> option exn.
Variable send_text : WebSocket -> string -> option exn.
Variable json_loads : string -> option parsed.
Variable insert_message : value -> value -> value -> option exn.

Lemma sender_absent_spec websocket room_name n :
  sender_absent websocket room_name n =
  (Ok (negb (contains websocket (room_value room_name n))), snd (getitem room_name n)).
Proof.
  unfold sender_absent, get_members, mbind, M_bind.
  rewrite getitem_eq. by rewrite getitem_idem.
Qed.

(** A turn of the loop on a payload that parses and has both fields:
    the re-join may be refused, the store may raise, or [push] is
    called. *)
Lemma loop_body_unfold websocket room_name data d m s n :
  json_loads data = Some (JDict d) ->
  d !! "message" = Some m ->
  d !! "sender" = Some s ->
  loop_body accept send_text json_loads insert_message websocket room_name data n =
  match (if contains websocket (room_value room_name n) then None else accept websocket) with
  | Some e => (Raise e, snd (getitem room_name n))
  | None =>
      match insert_message m s (VStr room_name) with
      | Some e => (Raise e, at_push websocket room_name m s n)
      | None => push send_text data room_name (at_push websocket room_name m s n)
      end
  end.
Proof.
  intros Hj Hm Hs.
  unfold loop_body, load_payload. rewrite Hj.
  unfold mbind at 1, M_bind at 1, mret at 1, M_ret at 1.
  unfold mbind at 1, M_bind at 1. rewrite sender_absent_spec.
  set (d' := <["room_name" := VStr room_name]> d).
  assert (call_insert_message d' =
          fun n' => (Ok (m, s, VStr room_name),
                     add_log [InsertMessage m s (VStr room_name)] n')) as Hcall.
  { unfold call_insert_message, subscript, d'.
    assert ("room_name" <> "message") as H1 by (intros ?; discriminate).
    assert ("room_name" <> "sender") as H2 by (intros ?; discriminate).
    unfold mbind, M_bind, mret, M_ret, emit.
    rewrite (lookup_insert_ne _ _ _ _ H1), Hm.
    rewrite (lookup_insert_ne _ _ _ _ H2), Hs.
    by rewrite lookup_insert_eq. }
  unfold at_push.
  destruct (contains websocket (room_value room_name n)) eqn:Hin; simpl.
  - unfold mbind, M_bind, mret, M_ret. rewrite Hcall.
    unfold await_insert_message. simpl.
    by destruct (insert_message m s (VStr room_name)).
  - destruct (accept websocket) as [e|] eqn:Ha.
    + unfold mbind at 1, M_bind at 1. by rewrite (connect_refused _ _ _ _ _ Ha).
    + unfold mbind at 1, M_bind at 1. rewrite (connect_spec _ _ _ _ Ha).
      unfold mbind, M_bind. rewrite Hcall.
      unfold await_insert_message. simpl.
      rewrite getitem_room_value.
      rewrite !set_room_add_log, getitem_then_set.
      by destruct (insert_message m s (VStr room_name)).
Qed.


End SessionFacts.

(** C7, as the code has it. A turn of the session loop that no other
    session interrupts, on the payload [data] whose parse has message
    [m] and sender [s], in room [room_name]. When the connection is
    found absent and the handshake of its re-join raises, the turn has
    no event at all: nothing is stored and nothing is sent. Otherwise
    the events of the turn are: the handshake of that re-join if there is one, then the call
    [insert_message(m, s, room_name)], then the sends of the broadcast
    and nothing else, every one of them a send of the very string
    [data]. No send is made when the store raises; on a generator at its
    yield and with no send raising, every member is sent [data] once. *)
Theorem loop_body_stores_then_broadcasts accept send_text json_loads insert_message
    websocket room_name data d m s n :
  json_loads data = Some (JDict d) ->
  d !! "message" = Some m ->
  d !! "sender" = Some s ->
  (contains websocket (room_value room_name n) = false
   /\ accept websocket <> None
   /\ new_events n
        (snd (loop_body accept send_text json_loads insert_message websocket room_name data n))
      = [])
  \/ exists sends,
      new_events n
        (snd (loop_body accept send_text json_loads insert_message websocket room_name data n))
      = (if contains websocket (room_value room_name n) then [] else [Accepted websocket])
        ++ InsertMessage m s (VStr room_name) :: sends
      /\ Forall (send_of data) sends
      /\ (insert_message m s (VStr room_name) <> None -> sends = [])
      /\ (insert_message m s (VStr room_name) = None ->
          generator n = GenSuspended ->
          sends_ok send_text data
            (elements_of (room_value room_name (at_push websocket room_name m s n))) ->
          sends = map (fun receiver => Sent receiver data)
                    (reverse (elements_of
                       (room_value room_name (at_push websocket room_name m s n))))).
Proof.
  intros Hj Hm Hs.
  rewrite (loop_body_unfold accept send_text json_loads insert_message
             websocket room_name data d m s n Hj Hm Hs).
  assert (log (at_push websocket room_name m s n) =
          log n ++ (if contains websocket (room_value room_name n)
                    then [] else [Accepted websocket])
                ++ [InsertMessage m s (VStr room_name)]) as Hlog.
  { unfold at_push. destruct (contains websocket (room_value room_name n)); simpl.
    - by rewrite (proj2 (getitem_frame room_name n)).
    - by rewrite <- app_assoc. }
  destruct (contains websocket (room_value room_name n)) eqn:Hin;
    [|destruct (accept websocket) as [e|] eqn:Ha].
  2: { left. split; [done|]. split; [done|]. unfold new_events. simpl.
       rewrite (proj2 (getitem_frame room_name n)). by rewrite drop_all. }
  all: right.
  all: destruct (insert_message m s (VStr room_name)) as [e|] eqn:Hins.
  1, 3: exists []; split; [|split; [done|split; [done|done]]];
    unfold new_events; simpl snd; rewrite Hlog; by rewrite drop_app_length.
  all: destruct (push_log send_text data room_name (at_push websocket room_name m s n))
         as (sends & Hl & Hf);
    exists sends; split; [|split; [done|split; [done|]]].
  1, 3: unfold new_events; rewrite Hl, Hlog, <- !app_assoc; by rewrite drop_app_length.
  all: intros _ Hg Hok;
    assert (generator (at_push websocket room_name m s n) = GenSuspended) as Hg'
      by (unfold at_push; rewrite Hin; simpl;
          try rewrite (proj1 (getitem_frame room_name n)); done);
    rewrite (push_all_ok _ _ _ _ Hg' Hok) in Hl; simpl in Hl;
    by apply app_inv_head in Hl.
Qed.

Lemma loop_body_stores_then_broadcasts_witness :
  (contains 1 (room_value "r" room_r) = false
   /\ accepting 1 <> None
   /\ new_events room_r
        (snd (loop_body accepting healthy parse_hi stores 1 "r" "hi from A" room_r))
      = [])
  \/ exists sends,
      new_events room_r
        (snd (loop_body accepting healthy parse_hi stores 1 "r" "hi from A" room_r))
      = (if contains 1 (room_value "r" room_r) then [] else [Accepted 1])
        ++ InsertMessage (VStr "hi") (VStr "A") (VStr "r") :: sends
      /\ Forall (send_of "hi from A") sends
      /\ (stores (VStr "hi") (VStr "A") (VStr "r") <> None -> sends = [])
      /\ (stores (VStr "hi") (VStr "A") (VStr "r") = None ->
          generator room_r = GenSuspended ->
          sends_ok healthy "hi from A"
            (elements_of (room_value "r" (at_push 1 "r" (VStr "hi") (VStr "A") room_r))) ->
          sends = map (fun receiver => Sent receiver "hi from A")
                    (reverse (elements_of
                       (room_value "r" (at_push 1 "r" (VStr "hi") (VStr "A") room_r))))).
Proof.
  apply (loop_body_stores_then_broadcasts accepting healthy parse_hi stores 1 "r"
           "hi from A" {[ "message" := VStr "hi"; "sender" := VStr "A" ]}
           (VStr "hi") (VStr "A") room_r).
  - reflexivity.
  - reflexivity.
  - reflexivity.
Defined.

(** C7 as stated fails. The failed broadcast of session 0 has dropped
    connection 1 from the list of room "r". The payload that session 1
    then receives carries message "hi" and sender "A", but the
    handshake of the re-join raises: the session ends, the notifier and
    its log are as they were, so [insert_message] has not been called
    for that payload and nothing has been sent. *)
Lemma refused_rejoin_stores_nothing :
  parse_hi "hi from A"
  = Some (JDict {[ "message" := VStr "hi"; "sender" := VStr "A" ]})
  /\ run parse_hi Server_init failed_broadcast
     = Some (mkServer after_failed_broadcast
               [("r", Finished (Raise RuntimeError)); ("r", AwaitReceive)])
  /\ run parse_hi Server_init (failed_broadcast ++ refused_rejoin)
     = Some (mkServer after_failed_broadcast
               [("r", Finished (Raise RuntimeError));
                ("r", Finished (Raise RuntimeError))])
  /\ loop_body refusing healthy parse_hi stores 1 "r" "hi from A" after_failed_broadcast
     = (Raise RuntimeError, after_failed_broadcast).
Proof.
  split; [reflexivity|]. split; [vm_compute; reflexivity|].
  split; vm_compute; reflexivity.
Qed.

(** ** A broadcast that is not interrupted *)

Section SoloFacts.

Variable send_text : WebSocket -> string -> option exn.
Variable json_loads : string -> option parsed.

Lemma solo_sends_done fuel s websocket room_name p :
  sessions s !! websocket = Some (room_name, p) ->
  (forall data receiver living, p <> AwaitSend data receiver living) ->
  solo_sends send_text json_loads fuel s websocket = Some s.
Proof.
  intros Hs Hp. destruct fuel as [|fuel]; [done|]. simpl. rewrite Hs.
  destruct p; try done. by destruct (Hp data websocket0 living_connections).
Qed.

Lemma set_room_same room_name v n :
  connections n !! room_name = Some v -> set_room room_name v n = n.
Proof.
  intros H. unfold set_room. rewrite (insert_id _ _ _ H). by destruct n.
Qed.

Lemma room_value_present room_name n v :
  connections n !! room_name = Some v -> room_value room_name n = v.
Proof. intros H. unfold room_value. by rewrite H. Qed.

Lemma notify_resume_pop data room_name living n l x :
  connections n !! room_name = Some (ConnList (l ++ [x])) ->
  notify_resume data room_name living n =
  (Ok (AwaitSend data x living), set_room room_name (ConnList l) n).
Proof.
  intros Hc. unfold notify_resume, in_generator, mbind, M_bind.
  by rewrite (pop_connection_snoc _ _ l x (room_value_present _ _ _ Hc)).
Qed.

Lemma notify_resume_end data room_name living n :
  elements_of (room_value room_name n) = [] ->
  notify_resume data room_name living n =
  (Ok AwaitReceive,
   mkNotifier (<[room_name := ConnList living]> (connections n)) GenSuspended (log n)).
Proof.
  intros Hv. unfold notify_resume, in_generator, mbind, M_bind.
  rewrite pop_connection_empty by done.
  unfold getitem. destruct (connections n !! room_name); simpl; [done|].
  by rewrite insert_insert_eq.
Qed.

Lemma solo_sends_step fuel n ss websocket room_name data receiver living :
  ss !! websocket = Some (room_name, AwaitSend data receiver living) ->
  solo_sends send_text json_loads (S fuel) (mkServer n ss) websocket =
  solo_sends send_text json_loads fuel
    (mkServer
       (snd (settle websocket room_name true
               (match send_text receiver data with
                | Some e => (emit (SendFailed receiver data e);; asend_raise e) n
                | None =>
                    (emit (Sent receiver data);;
                     notify_resume data room_name (living ++ [receiver])) n
                end)))
       (<[websocket := (room_name,
            fst (settle websocket room_name true
                   (match send_text receiver data with
                    | Some e => (emit (SendFailed receiver data e);; asend_raise e) n
                    | None =>
                        (emit (Sent receiver data);;
                         notify_resume data room_name (living ++ [receiver])) n
                    end)))]> ss))
    websocket.
Proof.
  intros Hs. cbn [solo_sends sessions]. rewrite Hs.
  cbn [step sessions notifier]. rewrite Hs. cbn [resume in_try].
  destruct (send_text receiver data); by destruct (settle _ _ _ _).
Qed.

Lemma drain_cons message room_name websocket queue living n :
  drain send_text message room_name (websocket :: queue) living n =
  match send_text websocket message with
  | Some e =>
      (Raise e, set_room room_name (ConnList (reverse queue))
                  (add_log [SendFailed websocket message e] n))
  | None =>
      drain send_text message room_name queue (living ++ [websocket])
        (add_log [Sent websocket message] n)
  end.
Proof. reflexivity. Qed.

Lemma settle_raise websocket room_name e n :
  exists r, fst (settle websocket room_name true (Raise e, n)) = Finished r.
Proof.
  unfold settle. destruct (true && bool_decide (e = WebSocketDisconnect)).
  - destruct (remove websocket room_name n) as [r n']. by exists r.
  - by exists (Raise e).
Qed.

Lemma solo_sends_raised fuel websocket room_name e n ss :
  websocket < length ss ->
  solo_sends send_text json_loads fuel
    (mkServer (snd (settle websocket room_name true (Raise e, n)))
       (<[websocket := (room_name, fst (settle websocket room_name true (Raise e, n)))]> ss))
    websocket =
  Some (mkServer (snd (settle websocket room_name true (Raise e, n)))
       (<[websocket := (room_name, fst (settle websocket room_name true (Raise e, n)))]> ss)).
Proof.
  intros Hlt. destruct (settle_raise websocket room_name e n) as [r Hr].
  apply (solo_sends_done fuel _ websocket room_name (Finished r)); [|done].
  cbn [sessions]. rewrite list_lookup_insert_eq by done. by rewrite Hr.
Qed.

Lemma solo_sends_drain room_name data websocket queue :
  forall receiver living n ss,
    ss !! websocket = Some (room_name, AwaitSend data receiver living) ->
    connections n !! room_name = Some (ConnList (reverse queue)) ->
    solo_sends send_text json_loads (S (length queue)) (mkServer n ss) websocket =
    Some (mkServer
            (snd (after_push websocket room_name
                    (until_yield (drain send_text data room_name (receiver :: queue) living) n)))
            (<[websocket := (room_name,
                 fst (after_push websocket room_name
                        (until_yield (drain send_text data room_name (receiver :: queue) living) n)))]> ss)).
Proof.
  induction queue as [|x queue IH]; intros receiver living n ss Hs Hc;
    pose proof (lookup_lt_Some _ _ _ Hs) as Hlt;
    rewrite (solo_sends_step _ _ _ _ _ _ _ _ Hs);
    unfold until_yield, after_push; rewrite drain_cons;
    destruct (send_text receiver data) as [e|] eqn:Hsend.
  - (* the only send raises *)
    rewrite set_room_same by done.
    apply (solo_sends_raised _ websocket room_name (generator_exit e)). done.
  - (* the only send returns: line 92 and back to the yield *)
    unfold mbind, M_bind, emit.
    rewrite notify_resume_end by (unfold room_value; simpl; by rewrite Hc).
    reflexivity.
  - (* the send raises, [x :: queue] is not served *)
    rewrite set_room_same by done.
    apply (solo_sends_raised _ websocket room_name (generator_exit e)). done.
  - (* the send returns, [x] is popped next *)
    unfold mbind, M_bind, emit. rewrite reverse_cons in Hc.
    rewrite (notify_resume_pop _ _ _ _ (reverse queue) x) by done.
    cbn [settle fst snd length].
    rewrite (IH x (living ++ [receiver])); cycle 1.
    { by apply list_lookup_insert_eq. }
    { simpl. by rewrite lookup_insert_eq. }
    rewrite list_insert_insert_eq. unfold until_yield, after_push.
    fold (add_log [Sent receiver data] n).
    fold (set_room room_name (ConnList (reverse queue)) (add_log [Sent receiver data] n)).
    by rewrite drain_set_room.
Qed.

(** X21. A broadcast that no other session interrupts is the call
    [notifier.push(data, room_name)] of the method-level model, followed
    by the handler of [websocket_endpoint] if it raises. *)
Theorem solo_push_is_push s websocket room_name data args :
  sessions s !! websocket = Some (room_name, AwaitInsert data args) ->
  solo_push send_text json_loads s websocket =
  Some (mkServer
          (snd (after_push websocket room_name
                  (push send_text data room_name (notifier s))))
          (<[websocket := (room_name,
               fst (after_push websocket room_name
                      (push send_text data room_name (notifier s))))]> (sessions s))).
Proof.
  intros Hs. pose proof (lookup_lt_Some _ _ _ Hs) as Hlt.
  unfold solo_push. rewrite Hs. cbn [step]. rewrite Hs. cbn [resume in_try].
  destruct s as [n ss]. cbn [notifier sessions] in *.
  destruct (decide (generator n = GenSuspended)) as [Hg|Hg].
  - rewrite (push_suspended _ _ _ _ Hg). unfold mbind, M_bind.
    assert (asend_resume n = (Ok tt, mkNotifier (connections n) GenRunning (log n))) as ->
      by (unfold asend_resume; by rewrite Hg).
    set (nr := mkNotifier (connections n) GenRunning (log n)).
    unfold len.
    assert (forall v,
      until_yield (_notify send_text data room_name) nr =
      until_yield
        (drain send_text data room_name (reverse (elements_of (room_value room_name n))) [])
        (set_room room_name v nr)) as Hpush.
    { intros v. unfold until_yield. by rewrite _notify_drain, drain_set_room. }
    assert (
      until_yield (_notify send_text data room_name) nr =
      until_yield
        (drain send_text data room_name (reverse (elements_of (room_value room_name n))) [])
        nr) as Hpush0.
    { unfold until_yield. by rewrite _notify_drain. }
    assert (room_value room_name nr = room_value room_name n) as Hnr by done.
    destruct (room_value room_name n) as [|l] eqn:Hv;
      [|destruct l as [|x l _] using rev_ind]; cbn [elements_of length] in *.
    + rewrite notify_resume_end by by rewrite Hnr.
      by rewrite Hpush0.
    + rewrite notify_resume_end by by rewrite Hnr.
      by rewrite Hpush0.
    + assert (connections n !! room_name = Some (ConnList (l ++ [x]))) as Hc.
      { unfold room_value in Hv.
        by destruct (connections n !! room_name) as [[|l']|]; simplify_eq/=. }
      rewrite (notify_resume_pop _ _ _ nr l x) by done. cbn [settle].
      rewrite length_app, Nat.add_1_r, <- (length_reverse l).
      rewrite (solo_sends_drain room_name data websocket (reverse l) x []); cycle 1.
      { by apply list_lookup_insert_eq. }
      { simpl. by rewrite lookup_insert_eq, reverse_involutive. }
      by rewrite list_insert_insert_eq, (Hpush (ConnList l)), reverse_snoc.
  - assert (exists e, asend_resume n = (Raise e, n)) as [e He].
    { unfold asend_resume, raise. destruct (generator n); by eauto. }
    unfold push, after_push, mbind, M_bind. rewrite He. cbn [fst snd].
    destruct (settle_raise websocket room_name e n) as [r Hr].
    destruct (settle websocket room_name true (Raise e, n)) as [p' n'].
    simpl in Hr. subst p'.
    apply (solo_sends_done _ _ websocket room_name (Finished r)); [|done].
    by apply list_lookup_insert_eq.
Qed.

End SoloFacts.

(** ** A disconnect outside of a broadcast *)

Lemma list_remove_NoDup x l l' :
  NoDup l -> list_remove x l = Some l' -> x ∉ l'.
Proof.
  revert l'. induction l as [|y l IH]; intros l' Hnd; simpl; [done|].
  apply NoDup_cons in Hnd as [Hy Hnd].
  destruct (decide (x = y)) as [->|Hne].
  - by intros [= <-].
  - destruct (list_remove x l) as [r|] eqn:E; [|done]. intros [= <-].
    intros Hin. apply elem_of_cons in Hin as [?|Hin]; [done|]. by apply (IH r).
Qed.

(** [remove] on a list without duplicates: whether it returns or
    raises, the connection is not in the room afterwards. *)
Lemma remove_leaves_absent websocket room_name n :
  NoDup (elements_of (room_value room_name n)) ->
  websocket ∉ elements_of (room_value room_name (snd (remove websocket room_name n))).
Proof.
  intros Hnd. destruct (decide (websocket ∈ elements_of (room_value room_name n))) as [Hin|Hnin].
  - unfold remove, mbind, M_bind. rewrite getitem_eq.
    destruct (room_value room_name n) as [|l] eqn:Hv; simpl in *.
    + by apply not_elem_of_nil in Hin.
    + destruct (list_remove websocket l) as [l'|] eqn:Hl.
      * unfold setitem. simpl. unfold room_value. simpl. rewrite lookup_insert_eq. simpl.
        by apply (list_remove_NoDup _ l).
      * by apply list_remove_None in Hl.
  - rewrite (remove_absent _ _ _ Hnin). simpl. by rewrite getitem_room_value.
Qed.

Section QuietDisconnect.

Variable json_loads : string -> option parsed.

(** X22. When the receive of a session raises the disconnect while the
    list of its room holds no connection twice, as is the case when no
    broadcast is under way, the session ends and its connection is not
    in the list. *)
Lemma disconnect_outside_broadcast s websocket room_name :
  sessions s !! websocket = Some (room_name, AwaitReceive) ->
  NoDup (elements_of (room_value room_name (notifier s))) ->
  exists s' r,
    step json_loads s (Resume websocket (ReceiveDone (Raise WebSocketDisconnect))) = Some s'
    /\ sessions s' !! websocket = Some (room_name, Finished r)
    /\ websocket ∉ elements_of (room_value room_name (notifier s')).
Proof.
  intros Hs Hnd. pose proof (lookup_lt_Some _ _ _ Hs) as Hlt.
  pose proof (remove_leaves_absent websocket room_name (notifier s) Hnd) as Habs.
  cbn [step]. rewrite Hs. cbn [resume in_try settle raise andb].
  rewrite bool_decide_eq_true_2 by done.
  destruct (remove websocket room_name (notifier s)) as [r n'].
  eexists _, r. split; [done|]. split; [|done].
  by apply list_lookup_insert_eq.
Qed.

End QuietDisconnect.

(** ** A session that runs alone *)

Section AloneFacts.

Variable accept : WebSocket -> option exn.
Variable send_text : WebSocket -> string -> option exn.
Variable json_loads : string -> option parsed.
Variable insert_message : value -> value -> value -> option exn.

(** Either no send raises, or there is a last member whose send does. *)
Lemma sends_ok_or_failure message l :
  sends_ok send_text message l
  \/ exists before failing after e,
       l = before ++ failing :: after
       /\ sends_ok send_text message after
       /\ send_text failing message = Some e.
Proof.
  induction l as [|x l [Hok|(before & f & after & e & -> & Hok & Hf)]].
  - left. constructor.
  - destruct (send_text x message) as [e|] eqn:Hx.
    + right. by exists [], x, l, e.
    + left. by constructor.
  - right. by exists (x :: before), f, after, e.
Qed.

Lemma _notify_NoDup message room_name n :
  NoDup (elements_of (room_value room_name n)) ->
  NoDup (elements_of (room_value room_name (snd (_notify send_text message room_name n)))).
Proof.
  intros Hnd.
  destruct (sends_ok_or_failure message (elements_of (room_value room_name n)))
    as [Hok|(before & f & after & e & Hl & Hok & Hf)].
  - rewrite _notify_all_ok by done. simpl. rewrite room_value_set_room. simpl.
    by rewrite reverse_Permutation.
  - rewrite (_notify_first_failure _ _ _ _ before f after e) by done. simpl.
    rewrite room_value_set_room. simpl. rewrite Hl in Hnd.
    by apply NoDup_app in Hnd as [? _].
Qed.

Lemma push_NoDup msg room_name n :
  NoDup (elements_of (room_value room_name n)) ->
  NoDup (elements_of (room_value room_name (snd (push send_text msg room_name n)))).
Proof.
  intros Hnd. unfold push, mbind, M_bind, asend_resume, raise, set_generator.
  destruct (generator n); simpl; try done.
  pose proof (_notify_NoDup msg room_name
                (mkNotifier (connections n) GenRunning (log n)) Hnd) as H.
  unfold until_yield.
  by destruct (_notify send_text msg room_name _) as [[[]|e] n'].
Qed.

Lemma loop_body_NoDup websocket room_name data n :
  NoDup (elements_of (room_value room_name n)) ->
  NoDup (elements_of (room_value room_name
    (snd (loop_body accept send_text json_loads insert_message websocket room_name data n)))).
Proof.
  intros Hnd. unfold loop_body, load_payload.
  destruct (json_loads data) as [[d|]|]; [|done..].
  unfold mbind at 1, M_bind at 1, mret at 1, M_ret at 1.
  unfold mbind at 1, M_bind at 1. rewrite sender_absent_spec.
  set (d' := <["room_name" := VStr room_name]> d).
  assert (forall n0,
    NoDup (elements_of (room_value room_name n0)) ->
    NoDup (elements_of (room_value room_name
      (snd ((call_insert_message d' ≫= λ args,
               await_insert_message insert_message args;;
               push send_text data room_name) n0))))) as Hrest.
  { intros n0 Hn0. unfold call_insert_message, subscript, mbind, M_bind, mret, M_ret, raise, emit.
    destruct (d' !! "message"); [|done]. destruct (d' !! "sender"); [|done].
    destruct (d' !! "room_name"); [|done]. simpl.
    unfold await_insert_message. simpl. destruct (insert_message _ _ _); [done|]. simpl.
    by apply push_NoDup. }
  destruct (contains websocket (room_value room_name n)) eqn:Hin; simpl.
  - unfold mbind at 1, M_bind at 1, mret at 1, M_ret at 1. apply Hrest.
    by rewrite getitem_room_value.
  - unfold mbind at 1, M_bind at 1.
    destruct (accept websocket) as [e|] eqn:Ha.
    + rewrite (connect_refused _ _ _ _ _ Ha). simpl. by rewrite getitem_room_value.
    + rewrite (connect_spec _ _ _ _ Ha). apply Hrest.
      rewrite room_value_set_room. simpl. rewrite getitem_room_value.
      apply NoDup_app. split; [done|]. split; [|apply NoDup_singleton].
      intros x Hx Hx'. apply list_elem_of_singleton in Hx'. subst x.
      unfold contains in Hin. by apply bool_decide_eq_false in Hin.
Qed.

Lemma while_true_NoDup websocket room_name received n :
  NoDup (elements_of (room_value room_name n)) ->
  NoDup (elements_of (room_value room_name
    (snd (while_true accept send_text json_loads insert_message
            websocket room_name received n)))).
Proof.
  revert n. induction received as [|[data|e] received IH]; intros n Hnd; simpl; [done| |done].
  unfold mbind, M_bind.
  pose proof (loop_body_NoDup websocket room_name data n Hnd) as H.
  destruct (loop_body _ _ _ _ _ _ _ _) as [[[]|e] n']; simpl in *; [|done].
  by apply IH.
Qed.

(** X19. A session that no other session interrupts, from its connect
    to the receive that raises the disconnect: whatever it received
    before, its connection is not in the list of its room when it
    ends. *)
Theorem websocket_endpoint_disconnect websocket room_name received n :
  NoDup (elements_of (room_value room_name n)) ->
  websocket ∉ elements_of (room_value room_name n) ->
  accept websocket = None ->
  fst (while_true accept send_text json_loads insert_message websocket room_name received
         (snd (connect accept websocket room_name n))) = Raise WebSocketDisconnect ->
  websocket ∉ elements_of (room_value room_name
    (snd (websocket_endpoint accept send_text json_loads insert_message
            websocket room_name received n))).
Proof.
  intros Hnd Hnin Ha Hloop. unfold websocket_endpoint, mbind, M_bind.
  rewrite (connect_spec _ _ _ _ Ha) in *. cbn [snd] in Hloop.
  set (n1 := set_room _ _ _) in *.
  assert (NoDup (elements_of (room_value room_name n1))) as Hnd1.
  { unfold n1. rewrite room_value_set_room. simpl.
    apply NoDup_app. split; [done|]. split; [|apply NoDup_singleton].
    intros x Hx Hx'. apply list_elem_of_singleton in Hx'. by subst x. }
  pose proof (while_true_NoDup websocket room_name received n1 Hnd1) as Hnd2.
  unfold except_disconnect.
  destruct (while_true _ _ _ _ _ _ _ n1) as [[[]|e] n2]; simpl in *; [done|].
  injection Hloop as ->. rewrite decide_True by done.
  by apply remove_leaves_absent.
Qed.

End AloneFacts.

(** A session that joins an empty room, has one payload broadcast and
    then loses its transport. *)
Lemma websocket_endpoint_disconnect_example :
  0 ∉ elements_of (room_value "r"
    (snd (websocket_endpoint accepting healthy parse_hi stores 0 "r"
            [Ok "hi from A"; Raise WebSocketDisconnect]
            (snd (prime_generator Notifier_init))))).
Proof.
  apply websocket_endpoint_disconnect.
  - apply NoDup_nil_2.
  - apply not_elem_of_nil.
  - reflexivity.
  - reflexivity.
Defined.

(** ** An invariant of all schedules *)

Lemma grows_refl but n : grows but n n.
Proof. by split. Qed.

Lemma grows_trans but n1 n2 n3 : grows but n1 n2 -> grows but n2 n3 -> grows but n1 n3.
Proof.
  intros [Hg1 H1] [Hg2 H2]. split; [congruence|]. intros r j Hb Hj. by apply H2, H1.
Qed.

Lemma grows_weaken but n n' : grows None n n' -> grows but n n'.
Proof. intros [Hg H]. split; [done|]. intros r j _. by apply H. Qed.

Lemma grows_getitem room_name n : grows None n (snd (getitem room_name n)).
Proof.
  split; [apply getitem_frame|]. intros r j _. by rewrite getitem_room_value.
Qed.

Lemma grows_add_log evs n : grows None n (add_log evs n).
Proof. by split. Qed.

Lemma grows_connect_register websocket room_name n :
  grows None n (snd (connect_register websocket room_name n))
  /\ websocket ∈ elements_of (room_value room_name (snd (connect_register websocket room_name n))).
Proof.
  rewrite connect_register_spec. simpl. split; [split; [done|]|].
  - intros r j _ Hj. destruct (decide (room_name = r)) as [->|Hne].
    + rewrite room_value_set_room. simpl. apply elem_of_app. by left.
    + by rewrite room_value_set_room_ne.
  - rewrite room_value_set_room. simpl. apply elem_of_app. right. left.
Qed.

Lemma list_remove_keeps x y l l' :
  list_remove x l = Some l' -> y <> x -> y ∈ l -> y ∈ l'.
Proof.
  revert l'. induction l as [|z l IH]; intros l'; simpl; [done|].
  destruct (decide (x = z)) as [->|Hne].
  - intros [= <-] Hy Hin. apply elem_of_cons in Hin as [?|?]; [done|done].
  - destruct (list_remove x l) as [k|]; [|done]. intros [= <-] Hy Hin.
    apply elem_of_cons in Hin as [->|Hin]; [left|right]. by apply IH.
Qed.

Lemma grows_remove websocket room_name n :
  grows (Some websocket) n (snd (remove websocket room_name n)).
Proof.
  unfold remove, mbind, M_bind. rewrite getitem_eq.
  destruct (room_value room_name n) as [|l] eqn:Hv.
  - apply grows_weaken, grows_getitem.
  - destruct (list_remove websocket l) as [l'|] eqn:Hl.
    + split; [apply getitem_frame|]. intros r j Hj Hin. simpl.
      fold (set_room room_name (ConnList l') (snd (getitem room_name n))).
      destruct (decide (room_name = r)) as [->|Hne].
      * rewrite room_value_set_room. rewrite Hv in Hin. simpl in *.
        apply (list_remove_keeps websocket j l l' Hl); [congruence|done].
      * rewrite room_value_set_room_ne by done. by rewrite getitem_room_value.
    + apply grows_weaken, grows_getitem.
Qed.

Lemma local_ok_raise websocket room_name n e : local_ok websocket room_name n (Raise e, n).
Proof. split; [apply grows_refl|done]. Qed.

Lemma local_ok_grows websocket room_name n n' out :
  grows None n n' -> local_ok websocket room_name n' out -> local_ok websocket room_name n out.
Proof. intros Hg [Hg' H]. split; [by apply (grows_trans _ _ n')|done]. Qed.

Lemma local_ok_start_insert websocket room_name data d n :
  websocket ∈ elements_of (room_value room_name n) ->
  local_ok websocket room_name n (start_insert data d n).
Proof.
  intros Hin. unfold start_insert, call_insert_message, subscript, mbind, M_bind, mret, M_ret.
  destruct (d !! "message"); [|apply local_ok_raise].
  destruct (d !! "sender"); [|apply local_ok_raise].
  destruct (d !! "room_name"); [|apply local_ok_raise].
  simpl. split; [by split|]. simpl. intros p [= <-]. by split.
Qed.

Lemma local_settle websocket room_name guarded n out :
  local_ok websocket room_name n out ->
  grows (Some websocket) n (snd (settle websocket room_name guarded out))
  /\ sending (fst (settle websocket room_name guarded out)) = false
  /\ (waiting (fst (settle websocket room_name guarded out)) = true ->
      websocket ∈ elements_of (room_value room_name (snd (settle websocket room_name guarded out)))).
Proof.
  intros [Hg Hp]. destruct out as [[p|e] n0]; simpl in *.
  - destruct (Hp p eq_refl) as [Hs Hw]. split; [by apply grows_weaken|done].
  - destruct (guarded && bool_decide (e = WebSocketDisconnect)).
    + pose proof (grows_remove websocket room_name n0) as Hr.
      destruct (remove websocket room_name n0) as [r n']. simpl in *.
      split; [|done]. by apply (grows_trans _ _ n0); [apply grows_weaken|].
    + simpl. split; [by apply grows_weaken|done].
Qed.

Section KeptFacts.

Variable json_loads : string -> option parsed.

Lemma local_ok_accept websocket room_name reconnect r n :
  local_ok websocket room_name n
    (match r with
     | Some e => raise e
     | None =>
         emit (Accepted websocket);;
         connect_register websocket room_name;;
         match reconnect with
         | None => mret AwaitReceive
         | Some (data, d) => start_insert data d
         end
     end n).
Proof.
  destruct r as [e|]; [apply local_ok_raise|].
  unfold mbind, M_bind, emit. rewrite connect_register_spec.
  set (n1 := set_room _ _ _).
  assert (grows None n n1 /\ websocket ∈ elements_of (room_value room_name n1)) as [Hg Hin].
  { pose proof (grows_connect_register websocket room_name (add_log [Accepted websocket] n)) as H.
    by rewrite connect_register_spec in H. }
  destruct reconnect as [[data d]|].
  - by apply (local_ok_grows _ _ _ n1), local_ok_start_insert.
  - split; [done|]. simpl. intros p [= <-]. by split.
Qed.

Lemma local_ok_receive websocket room_name r n :
  local_ok websocket room_name n
    (match r with
     | Raise e => raise e
     | Ok data =>
         d ← load_payload json_loads data room_name;
         absent ← sender_absent websocket room_name;
         if (absent : bool) then mret (AwaitAccept (Some (data, d)))
         else start_insert data d
     end n).
Proof.
  destruct r as [data|e]; [|apply local_ok_raise].
  unfold load_payload, mbind at 1, M_bind at 1.
  destruct (json_loads data) as [[d|]|]; [|apply local_ok_raise..].
  unfold mret at 1, M_ret at 1, mbind, M_bind. rewrite sender_absent_spec.
  apply (local_ok_grows _ _ _ (snd (getitem room_name n))); [apply grows_getitem|].
  unfold contains.
  destruct (bool_decide (websocket ∈ elements_of (room_value room_name n))) eqn:Hin; simpl.
  - apply bool_decide_eq_true in Hin. apply local_ok_start_insert.
    by rewrite getitem_room_value.
  - split; [apply grows_refl|]. simpl. intros p [= <-]. by split.
Qed.

End KeptFacts.

Lemma lookup_session_insert (ss : list (string * pc)) i j x r p :
  i < length ss ->
  <[i := x]> ss !! j = Some (r, p) ->
  (j = i /\ x = (r, p)) \/ (j <> i /\ ss !! j = Some (r, p)).
Proof.
  intros Hlt H. destruct (decide (j = i)) as [->|Hne].
  - rewrite list_lookup_insert_eq in H by done. left. split; congruence.
  - rewrite list_lookup_insert_ne in H by done. by right.
Qed.

(** A step of a session that is not inside [_notify], that leaves the
    generator as it is and the connections of the other sessions where
    they are, keeps the invariant. *)
Lemma members_kept_local s websocket room_name p p' n' :
  members_kept s ->
  sessions s !! websocket = Some (room_name, p) ->
  sending p = false ->
  grows (Some websocket) (notifier s) n' ->
  sending p' = false ->
  (waiting p' = true -> websocket ∈ elements_of (room_value room_name n')) ->
  members_kept (mkServer n' (<[websocket := (room_name, p')]> (sessions s))).
Proof.
  intros Hinv Hs Hsp [Hgen Hgrow] Hsp' Hw'.
  pose proof (lookup_lt_Some _ _ _ Hs) as Hlt.
  unfold members_kept in *. cbn [notifier sessions]. rewrite Hgen.
  assert (forall j r q,
    <[websocket := (room_name, p')]> (sessions s) !! j = Some (r, q) ->
    (j = websocket /\ r = room_name /\ q = p')
    \/ (j <> websocket /\ sessions s !! j = Some (r, q))) as Hcase.
  { intros j r q Hj.
    destruct (lookup_session_insert _ _ _ _ _ _ Hlt Hj) as [[-> Heq]|[Hne Hj']].
    - left. by injection Heq as <- <-.
    - by right. }
  destruct (generator (notifier s)).
  - destruct Hinv as [Hnos Hmem]. split.
    + intros j r q Hj. destruct (Hcase j r q Hj) as [(-> & -> & ->)|[Hne Hj']]; [done|].
      by apply (Hnos j r q).
    + intros j r q Hj Hw. destruct (Hcase j r q Hj) as [(-> & -> & ->)|[Hne Hj']].
      * by apply Hw'.
      * apply Hgrow; [congruence|]. by apply (Hmem j r q).
  - destruct Hinv as [Hnos Hmem]. split.
    + intros j r q Hj. destruct (Hcase j r q Hj) as [(-> & -> & ->)|[Hne Hj']]; [done|].
      by apply (Hnos j r q).
    + intros j r q Hj Hw. destruct (Hcase j r q Hj) as [(-> & -> & ->)|[Hne Hj']].
      * by apply Hw'.
      * apply Hgrow; [congruence|]. by apply (Hmem j r q).
  - destruct Hinv as (b & rb & data & receiver & living & Hb & Honly & Hmem).
    assert (b <> websocket) as Hbne.
    { intros Heq. rewrite Heq in Hb.
      pose proof (eq_trans (eq_sym Hb) Hs) as H. injection H as _ Hp. by subst p. }
    exists b, rb, data, receiver, living. split; [|split].
    + by rewrite list_lookup_insert_ne.
    + intros j r q Hj Hsq. destruct (Hcase j r q Hj) as [(-> & -> & ->)|[Hne Hj']].
      * congruence.
      * by apply (Honly j r q).
    + intros j r q Hj Hw. destruct (Hcase j r q Hj) as [(-> & -> & ->)|[Hne Hj']].
      * left. by apply Hw'.
      * destruct (Hmem j r q Hj' Hw) as [Hin|Hheld]; [left|by right].
        apply Hgrow; [congruence|done].
  - intros j r q Hj. destruct (Hcase j r q Hj) as [(-> & -> & ->)|[Hne Hj']]; [done|].
    by apply (Hinv j r q).
Qed.

Lemma room_value_ConnList room_name n l :
  room_value room_name n = ConnList l -> connections n !! room_name = Some (ConnList l).
Proof.
  unfold room_value. destruct (connections n !! room_name); simpl; [by intros ->|done].
Qed.

Lemma nonempty_snoc (l : list WebSocket) x : x ∈ l -> exists l' y, l = l' ++ [y].
Proof.
  intros Hx. destruct l as [|z l _] using rev_ind.
  - by apply not_elem_of_nil in Hx.
  - by exists l, z.
Qed.

Section KeptStep.

Variable json_loads : string -> option parsed.

(** The invariant when a broadcast goes on to its next send: the list
    of the room was [l ++ [x]], and [x] is popped. *)
Lemma members_kept_pop s websocket room_name p data held l x n' :
  sessions s !! websocket = Some (room_name, p) ->
  waiting p = true ->
  (forall j r q, sessions s !! j = Some (r, q) -> sending q = true -> j = websocket) ->
  (forall j r q, sessions s !! j = Some (r, q) -> waiting q = true ->
     j ∈ elements_of (room_value r (notifier s))
     \/ (r = room_name /\ j ∈ held)) ->
  room_value room_name (notifier s) = ConnList (l ++ [x]) ->
  generator n' = GenRunning ->
  (forall r, room_value r n' =
             if decide (r = room_name) then ConnList l else room_value r (notifier s)) ->
  members_kept (mkServer n' (<[websocket := (room_name, AwaitSend data x held)]> (sessions s))).
Proof.
  intros Hs Hwp Honly Hmem Hv Hgen Hn'.
  pose proof (lookup_lt_Some _ _ _ Hs) as Hlt.
  unfold members_kept. cbn [notifier sessions]. rewrite Hgen.
  exists websocket, room_name, data, x, held. split; [|split].
  - by apply list_lookup_insert_eq.
  - intros j r q Hj Hsq.
    destruct (lookup_session_insert _ _ _ _ _ _ Hlt Hj) as [[-> _]|[Hne Hj']]; [done|].
    by apply (Honly j r q).
  - assert (forall j r, j ∈ elements_of (room_value r (notifier s)) \/ (r = room_name /\ j ∈ held) ->
              j ∈ elements_of (room_value r n') \/ (r = room_name /\ j ∈ x :: held)) as Hmove.
    { intros j r [Hin|[-> Hin]]; rewrite Hn'.
      - destruct (decide (r = room_name)) as [->|Hne]; [|by left].
        rewrite Hv in Hin. simpl in Hin. apply elem_of_app in Hin as [Hin|Hin].
        + by left.
        + right. split; [done|]. apply list_elem_of_singleton in Hin. subst. left.
      - right. split; [done|]. by right. }
    intros j r q Hj Hw.
    destruct (lookup_session_insert _ _ _ _ _ _ Hlt Hj) as [[-> Heq]|[Hne Hj']].
    + injection Heq as <- <-. apply Hmove. by apply (Hmem websocket room_name p).
    + apply Hmove. by apply (Hmem j r q).
Qed.

End KeptStep.

Section KeptSteps.

Variable json_loads : string -> option parsed.

(** The call of [push] on line 199. *)
Lemma members_kept_push s websocket room_name data args s' :
  members_kept s ->
  sessions s !! websocket = Some (room_name, AwaitInsert data args) ->
  step json_loads s (Resume websocket (InsertDone None)) = Some s' ->
  members_kept s'.
Proof.
  intros Hinv Hs Hstep. cbn [step] in Hstep. rewrite Hs in Hstep.
  cbn [resume in_try] in Hstep.
  destruct (decide (generator (notifier s) = GenSuspended)) as [Hg|Hg].
  - (* the body of the generator is resumed *)
    unfold members_kept in Hinv. rewrite Hg in Hinv. destruct Hinv as [Hnos Hmem].
    pose proof (Hmem websocket room_name _ Hs eq_refl) as Hin.
    destruct (room_value room_name (notifier s)) as [|l] eqn:Hv;
      [by apply not_elem_of_nil in Hin|].
    destruct (nonempty_snoc l websocket Hin) as (l' & x & ->).
    set (nr := mkNotifier (connections (notifier s)) GenRunning (log (notifier s))).
    assert ((asend_resume;; notify_resume data room_name []) (notifier s) =
            (Ok (AwaitSend data x []), set_room room_name (ConnList l') nr)) as Hcode.
    { unfold mbind, M_bind, asend_resume. rewrite Hg. unfold set_generator. fold nr.
      by rewrite (notify_resume_pop data room_name [] nr l' x
                    (room_value_ConnList _ _ _ Hv)). }
    rewrite Hcode in Hstep. cbn [settle] in Hstep. injection Hstep as <-.
    apply (members_kept_pop s websocket room_name (AwaitInsert data args) data [] l' x);
      try done.
    + intros j r q Hj Hsq. by rewrite (Hnos j r q Hj) in Hsq.
    + intros j r q Hj Hw. left. by apply (Hmem j r q).
    + intros r. destruct (decide (r = room_name)) as [->|Hne].
      * by rewrite room_value_set_room.
      * by rewrite room_value_set_room_ne.
  - (* [asend] raises *)
    assert (exists e, asend_resume (notifier s) = (Raise e, notifier s)) as [e He].
    { unfold asend_resume, raise. destruct (generator (notifier s)); by eauto. }
    unfold mbind, M_bind in Hstep. rewrite He in Hstep.
    pose proof (local_settle websocket room_name true (notifier s) _
                  (local_ok_raise websocket room_name (notifier s) e)) as (Hgr & Hsp & Hw).
    destruct (settle websocket room_name true (Raise e, notifier s)) as [p' n'].
    injection Hstep as <-.
    by apply (members_kept_local s websocket room_name (AwaitInsert data args) p' n').
Qed.

(** The end of an [await websocket.send_text(message)] of line 90. *)
Lemma members_kept_send s websocket room_name data receiver living r s' :
  members_kept s ->
  sessions s !! websocket = Some (room_name, AwaitSend data receiver living) ->
  step json_loads s (Resume websocket (SendDone r)) = Some s' ->
  members_kept s'.
Proof.
  intros Hinv Hs Hstep. pose proof (lookup_lt_Some _ _ _ Hs) as Hlt.
  cbn [step] in Hstep. rewrite Hs in Hstep. cbn [resume in_try] in Hstep.
  unfold members_kept in Hinv.
  destruct (generator (notifier s)) eqn:Hg;
    try (pose proof (proj1 Hinv _ _ _ Hs) as Hf; simpl in Hf; discriminate);
    try (pose proof (Hinv _ _ _ Hs) as Hf; simpl in Hf; discriminate).
  destruct Hinv as (b & rb & db & cb & lb & Hb & Honly & Hmem).
  assert (websocket = b) as <- by by apply (Honly websocket room_name _ Hs).
  pose proof (eq_trans (eq_sym Hb) Hs) as Heq. injection Heq as -> -> -> ->. clear Hb.
  destruct r as [e|].
  - (* the send raises: the generator is closed *)
    assert ((emit (SendFailed receiver data e);; asend_raise (A:=pc) e) (notifier s) =
            (Raise (generator_exit e),
             mkNotifier (connections (notifier s)) GenClosed
               (log (notifier s) ++ [SendFailed receiver data e]))) as Hcode by done.
    rewrite Hcode in Hstep. clear Hcode.
    set (n1 := mkNotifier _ GenClosed _) in Hstep.
    assert (generator (snd (settle websocket room_name true (Raise (generator_exit e), n1)))
            = GenClosed) as Hclosed.
    { unfold settle. destruct (true && bool_decide (generator_exit e = WebSocketDisconnect)); [|done].
      pose proof (grows_remove websocket room_name n1) as [Hgen _].
      by destruct (remove websocket room_name n1). }
    destruct (settle_raise websocket room_name (generator_exit e) n1) as [res Hres].
    destruct (settle websocket room_name true (Raise (generator_exit e), n1)) as [p' n'].
    simpl in Hres, Hclosed. subst p'. injection Hstep as <-.
    unfold members_kept. cbn [notifier sessions]. rewrite Hclosed.
    intros j rj q Hj.
    destruct (lookup_session_insert _ _ _ _ _ _ Hlt Hj) as [[-> Heq]|[Hne Hj']].
    + by injection Heq as <- <-.
    + destruct (sending q) eqn:Hsq; [|done]. by destruct (Hne (Honly j rj q Hj' Hsq)).
  - (* the send returns *)
    set (na := mkNotifier (connections (notifier s)) (generator (notifier s))
                 (log (notifier s) ++ [Sent receiver data])).
    assert ((emit (Sent receiver data);;
             notify_resume data room_name (living ++ [receiver])) (notifier s) =
            notify_resume data room_name (living ++ [receiver]) na) as Hcode by done.
    rewrite Hcode in Hstep. clear Hcode.
    assert (forall j rj q, sessions s !! j = Some (rj, q) -> waiting q = true ->
              j ∈ elements_of (room_value rj (notifier s))
              \/ (rj = room_name /\ j ∈ living ++ [receiver])) as Hmem'.
    { intros j rj q Hj Hw. destruct (Hmem j rj q Hj Hw) as [?|[-> Hin]]; [by left|right].
      split; [done|]. apply elem_of_cons in Hin as [->|Hin]; apply elem_of_app.
      - right. left.
      - by left. }
    destruct (room_value room_name (notifier s)) as [|l] eqn:Hv;
      [|destruct l as [|x l _] using rev_ind].
    3: { (* the next connection is popped *)
         rewrite (notify_resume_pop _ _ _ na l x (room_value_ConnList _ _ _ Hv)) in Hstep.
         cbn [settle] in Hstep. injection Hstep as <-.
         apply (members_kept_pop s websocket room_name (AwaitSend data receiver living)
                  data (living ++ [receiver]) l x); try done.
         intros r. destruct (decide (r = room_name)) as [->|Hne].
         - by rewrite room_value_set_room.
         - by rewrite room_value_set_room_ne. }
    (* the list is used up: line 92, and back to the yield *)
    all: rewrite notify_resume_end in Hstep by (change (room_value room_name na)
           with (room_value room_name (notifier s)); by rewrite Hv).
    all: cbn [settle] in Hstep; injection Hstep as <-.
    all: unfold members_kept; cbn [notifier sessions generator]; split.
    all: try (intros j rj q Hj;
      destruct (lookup_session_insert _ _ _ _ _ _ Hlt Hj) as [[-> Heq]|[Hne Hj']];
      [by injection Heq as <- <-|];
      destruct (sending q) eqn:Hsq; [|done]; by destruct (Hne (Honly j rj q Hj' Hsq))).
    all: intros j rj q Hj Hw;
      assert (j ∈ elements_of (room_value rj (notifier s))
              \/ (rj = room_name /\ j ∈ living ++ [receiver])) as Hold
        by (destruct (lookup_session_insert _ _ _ _ _ _ Hlt Hj) as [[-> Heq]|[Hne Hj']];
            [injection Heq as <- <-; by apply (Hmem' websocket room_name _ Hs)
            |by apply (Hmem' j rj q)]);
      unfold room_value; cbn [connections];
      destruct (decide (rj = room_name)) as [->|Hne'];
      [rewrite lookup_insert_eq; simpl;
       destruct Hold as [Hin|[_ Hin]]; [|done]; rewrite Hv in Hin; simpl in Hin;
       by apply not_elem_of_nil in Hin
      |rewrite lookup_insert_ne by done;
       destruct Hold as [Hin|[? _]]; [done|done]].
Qed.

End KeptSteps.

Section Kept.

Variable json_loads : string -> option parsed.

Lemma lookup_snoc_session (ss : list (string * pc)) x j r p :
  (ss ++ [x]) !! j = Some (r, p) -> ss !! j = Some (r, p) \/ x = (r, p).
Proof.
  intros H. apply lookup_app_Some in H as [H|[_ H]]; [by left|right].
  apply list_lookup_singleton_Some in H as [_ H]. done.
Qed.

Theorem members_kept_step s a s' :
  members_kept s -> step json_loads s a = Some s' -> members_kept s'.
Proof.
  intros Hinv Hstep. destruct a as [|room_name|websocket c].
  - (* Startup *)
    cbn [step] in Hstep. injection Hstep as <-.
    unfold members_kept in *. cbn [notifier sessions].
    unfold prime_generator, set_generator, asend_raise, raise, mbind, M_bind.
    destruct (generator (notifier s)) eqn:Hg; simpl; try rewrite Hg; try done.
    by destruct Hinv.
  - (* Open *)
    cbn [step] in Hstep. injection Hstep as <-.
    unfold members_kept in *. cbn [notifier sessions].
    destruct (generator (notifier s)).
    1, 2: destruct Hinv as [Hnos Hmem]; split;
      [intros j r p Hj; destruct (lookup_snoc_session _ _ _ _ _ Hj) as [Hj'|Heq];
         [by apply (Hnos j r p)|by injection Heq as <- <-]
      |intros j r p Hj Hw; destruct (lookup_snoc_session _ _ _ _ _ Hj) as [Hj'|Heq];
         [by apply (Hmem j r p)|by injection Heq as <- <-]].
    + destruct Hinv as (b & rb & data & receiver & living & Hb & Honly & Hmem).
      exists b, rb, data, receiver, living. split; [|split].
      * by apply lookup_app_l_Some.
      * intros j r p Hj Hsp. destruct (lookup_snoc_session _ _ _ _ _ Hj) as [Hj'|Heq];
          [by apply (Honly j r p)|by injection Heq as <- <-].
      * intros j r p Hj Hw. destruct (lookup_snoc_session _ _ _ _ _ Hj) as [Hj'|Heq];
          [by apply (Hmem j r p)|by injection Heq as <- <-].
    + intros j r p Hj. destruct (lookup_snoc_session _ _ _ _ _ Hj) as [Hj'|Heq];
        [by apply (Hinv j r p)|by injection Heq as <- <-].
  - (* Resume *)
    destruct (sessions s !! websocket) as [[room_name p]|] eqn:Hs;
      [|by cbn [step] in Hstep; rewrite Hs in Hstep].
    destruct p as [reconnect| |data args|data receiver living|res], c as [r|r|r|r];
      try (by cbn [step] in Hstep; rewrite Hs in Hstep).
    + (* the handshake is over *)
      cbn [step] in Hstep. rewrite Hs in Hstep. cbn [resume] in Hstep.
      pose proof (local_settle websocket room_name (in_try (AwaitAccept reconnect))
                    (notifier s) _
                    (local_ok_accept websocket room_name reconnect r (notifier s)))
        as (Hgr & Hsp & Hw).
      destruct (settle websocket room_name _ _) as [p' n']. injection Hstep as <-.
      by apply (members_kept_local s websocket room_name (AwaitAccept reconnect) p' n').
    + (* the receive is over *)
      cbn [step] in Hstep. rewrite Hs in Hstep. cbn [resume] in Hstep.
      pose proof (local_settle websocket room_name (in_try AwaitReceive)
                    (notifier s) _
                    (local_ok_receive json_loads websocket room_name r (notifier s)))
        as (Hgr & Hsp & Hw).
      destruct (settle websocket room_name _ _) as [p' n']. injection Hstep as <-.
      by apply (members_kept_local s websocket room_name AwaitReceive p' n').
    + (* the store is over *)
      destruct r as [e|]; [|by apply (members_kept_push json_loads s websocket room_name data args)].
      cbn [step] in Hstep. rewrite Hs in Hstep. cbn [resume in_try] in Hstep.
      pose proof (local_settle websocket room_name true (notifier s) _
                    (local_ok_raise websocket room_name (notifier s) e))
        as (Hgr & Hsp & Hw).
      unfold raise in Hstep.
      destruct (settle websocket room_name _ _) as [p' n']. injection Hstep as <-.
      by apply (members_kept_local s websocket room_name (AwaitInsert data args) p' n').
    + (* a send is over *)
      by apply (members_kept_send json_loads s websocket room_name data receiver living r).
Qed.

Lemma members_kept_init : members_kept Server_init.
Proof. split; intros j r p H; by destruct j. Qed.

Theorem members_kept_run schedule s :
  run json_loads Server_init schedule = Some s -> members_kept s.
Proof.
  assert (forall s0, members_kept s0 ->
            run json_loads s0 schedule = Some s -> members_kept s) as H.
  { induction schedule as [|a schedule IH]; intros s0 H0 Hrun; simpl in Hrun.
    - by injection Hrun as <-.
    - destruct (step json_loads s0 a) as [s1|] eqn:Hstep; [|done].
      apply (IH s1); [|done]. by apply (members_kept_step s0 a). }
  apply H, members_kept_init.
Qed.

(** X20. Under every schedule: when the coroutine of a session gets to
    run [_notify] for a payload it received, which is when its await of
    [insert_message] returns on a generator that waits at its yield, the
    connection of the session is in the list of its room. *)
Theorem sender_is_member_when_notify_runs schedule s websocket room_name data args :
  run json_loads Server_init schedule = Some s ->
  sessions s !! websocket = Some (room_name, AwaitInsert data args) ->
  generator (notifier s) = GenSuspended ->
  websocket ∈ elements_of (room_value room_name (notifier s)).
Proof.
  intros Hrun Hs Hg. pose proof (members_kept_run schedule s Hrun) as Hinv.
  unfold members_kept in Hinv. rewrite Hg in Hinv.
  by apply (proj2 Hinv websocket room_name (AwaitInsert data args)).
Qed.

End Kept.

(** Two sessions in room "r"; the second has received a payload and
    waits for the store. *)
Lemma sender_is_member_when_notify_runs_example :
  1 ∈ elements_of (room_value "r" (mkNotifier {[ "r" := ConnList [0; 1] ]} GenSuspended
         [Accepted 0; Accepted 1; InsertMessage (VStr "hi") (VStr "A") (VStr "r")])).
Proof.
  apply (sender_is_member_when_notify_runs parse_hi
           [Startup; Open "r"; Resume 0 (AcceptDone None);
            Open "r"; Resume 1 (AcceptDone None);
            Resume 1 (ReceiveDone (Ok "hi from A"))]
           (mkServer
              (mkNotifier {[ "r" := ConnList [0; 1] ]} GenSuspended
                 [Accepted 0; Accepted 1; InsertMessage (VStr "hi") (VStr "A") (VStr "r")])
              [("r", AwaitReceive);
               ("r", AwaitInsert "hi from A" (VStr "hi", VStr "A", VStr "r"))])
           1 "r" "hi from A" (VStr "hi", VStr "A", VStr "r")).
  - vm_compute. reflexivity.
  - reflexivity.
  - reflexivity.
Defined.

(** ** A disconnect during a broadcast *)

(** C6 on the code. The receive of connection 2 raises the disconnect
    while a broadcast that has already popped connection 2 awaits a send:
    [remove] does not find the connection and raises ValueError, the
    broadcast puts the connection back with the others it served, and
    the session of connection 2 is over with the connection still in the
    list of room "r". The next broadcast to the room sends to it. *)
Theorem disconnect_during_broadcast_keeps_member :
  exists s s',
    run parse_hi Server_init disconnect_during_broadcast = Some s
    /\ sessions s !! 2 = Some ("r", Finished (Raise ValueError))
    /\ room_value "r" (notifier s) = ConnList [2; 1; 0]
    /\ run parse_hi s next_broadcast = Some s'
    /\ sessions s' !! 0 = Some ("r", AwaitSend "hi from A" 2 [0; 1]).
Proof.
  eexists _, _. split; [vm_compute; reflexivity|].
  split; [reflexivity|]. split; [reflexivity|].
  split; [vm_compute; reflexivity|]. reflexivity.
Qed.

(** ** More on broadcasts *)

Lemma push_closed send_text msg room_name n :
  generator n = GenClosed ->
  push send_text msg room_name n = (Raise StopAsyncIteration, n).
Proof. intros Hg. unfold push, mbind, M_bind, asend_resume. by rewrite Hg. Qed.

Lemma push_first_failure send_text msg room_name n before failing after e :
  generator n = GenSuspended ->
  elements_of (room_value room_name n) = before ++ failing :: after ->
  sends_ok send_text msg after ->
  send_text failing msg = Some e ->
  push send_text msg room_name n =
  (Raise (generator_exit e),
   mkNotifier (<[room_name := ConnList before]> (connections n)) GenClosed
     (log n ++ map (fun websocket => Sent websocket msg) (reverse after)
            ++ [SendFailed failing msg e])).
Proof.
  intros Hg Hl Hok Hf. rewrite (push_suspended _ _ _ _ Hg). unfold until_yield.
  by rewrite (_notify_first_failure _ _ _ _ before failing after e).
Qed.

(** X1. Once a send of a broadcast has raised, the notification
    generator is closed for good: every later [push], to any room, with
    any message and whatever the transports do then, raises
    StopAsyncIteration and changes nothing, so that no message is
    delivered any more. *)
Theorem push_after_failed_broadcast send_text send_text' msg room_name n
    before failing after e (later : list (string * string)) :
  generator n = GenSuspended ->
  elements_of (room_value room_name n) = before ++ failing :: after ->
  sends_ok send_text msg after ->
  send_text failing msg = Some e ->
  (forall msg' room_name',
     push send_text' msg' room_name' (snd (push send_text msg room_name n)) =
     (Raise StopAsyncIteration, snd (push send_text msg room_name n)))
  /\ foldl (fun n' c => snd (push send_text' c.1 c.2 n'))
       (snd (push send_text msg room_name n)) later
     = snd (push send_text msg room_name n).
Proof.
  intros Hg Hl Hok Hf.
  rewrite (push_first_failure _ _ _ _ before failing after e) by done. cbn [snd].
  set (n1 := mkNotifier _ GenClosed _).
  assert (forall msg' room_name',
            push send_text' msg' room_name' n1 = (Raise StopAsyncIteration, n1)) as Hclosed.
  { intros msg' room_name'. by apply push_closed. }
  split; [done|]. induction later as [|c later IH]; [done|].
  cbn [foldl]. by rewrite Hclosed.
Qed.

Lemma push_after_failed_broadcast_witness :
  (forall msg' room_name',
     push healthy msg' room_name' (snd (push (broken 2) "hello" "lobby" lobby)) =
     (Raise StopAsyncIteration, snd (push (broken 2) "hello" "lobby" lobby)))
  /\ foldl (fun n' c => snd (push healthy c.1 c.2 n'))
       (snd (push (broken 2) "hello" "lobby" lobby)) [("again", "lobby"); ("hi", "r")]
     = snd (push (broken 2) "hello" "lobby" lobby).
Proof.
  apply (push_after_failed_broadcast (broken 2) healthy "hello" "lobby" lobby
           [1] 2 [3] RuntimeError).
  - reflexivity.
  - reflexivity.
  - repeat constructor.
  - reflexivity.
Defined.

(** X2. On a generator waiting at its yield, two broadcasts in a row in
    which no send raises and which no other session interrupts (no
    connection joins or leaves the room while a send is awaited) put the
    list of the room back in the order it had: the first one sends from the last
    member to the first and stores the reversed list, the second one
    sends from the first member to the last. *)
Theorem push_twice_restores_order send_text msg1 msg2 room_name n :
  generator n = GenSuspended ->
  sends_ok send_text msg1 (elements_of (room_value room_name n)) ->
  sends_ok send_text msg2 (elements_of (room_value room_name n)) ->
  fst (push send_text msg2 room_name (snd (push send_text msg1 room_name n))) = Ok tt
  /\ room_value room_name
       (snd (push send_text msg2 room_name (snd (push send_text msg1 room_name n))))
     = ConnList (elements_of (room_value room_name n))
  /\ new_events (snd (push send_text msg1 room_name n))
       (snd (push send_text msg2 room_name (snd (push send_text msg1 room_name n))))
     = map (fun websocket => Sent websocket msg2) (elements_of (room_value room_name n)).
Proof.
  intros Hg Hok1 Hok2. rewrite (push_all_ok _ _ _ _ Hg Hok1). cbn [snd].
  set (l := elements_of (room_value room_name n)) in *.
  set (n1 := mkNotifier _ GenSuspended _).
  assert (elements_of (room_value room_name n1) = reverse l) as Hl1.
  { unfold room_value, n1. simpl. by rewrite lookup_insert_eq. }
  assert (sends_ok send_text msg2 (elements_of (room_value room_name n1))) as Hok2'.
  { rewrite Hl1. unfold sends_ok in *. rewrite Forall_forall in *. intros x Hx.
    apply Hok2. by apply elem_of_reverse. }
  rewrite (push_all_ok send_text msg2 room_name n1 eq_refl Hok2').
  rewrite Hl1, reverse_involutive. cbn [fst snd]. split; [done|]. split.
  - unfold room_value. simpl. by rewrite lookup_insert_eq.
  - unfold new_events. simpl. by rewrite drop_app_length.
Qed.

Lemma push_twice_restores_order_witness :
  fst (push healthy "two" "lobby" (snd (push healthy "one" "lobby" lobby))) = Ok tt
  /\ room_value "lobby"
       (snd (push healthy "two" "lobby" (snd (push healthy "one" "lobby" lobby))))
     = ConnList (elements_of (room_value "lobby" lobby))
  /\ new_events (snd (push healthy "one" "lobby" lobby))
       (snd (push healthy "two" "lobby" (snd (push healthy "one" "lobby" lobby))))
     = map (fun websocket => Sent websocket "two") (elements_of (room_value "lobby" lobby)).
Proof.
  apply (push_twice_restores_order healthy "one" "two" "lobby" lobby).
  - reflexivity.
  - repeat constructor.
  - repeat constructor.
Defined.

Lemma receivers_app evs evs' : receivers (evs ++ evs') = receivers evs ++ receivers evs'.
Proof. unfold receivers. apply omap_app. Qed.

Lemma drain_receivers send_text message room_name queue living n :
  exists sends k,
    log (snd (drain send_text message room_name queue living n)) = log n ++ sends
    /\ receivers sends = take k queue.
Proof.
  revert living n. induction queue as [|ws queue IH]; intros living n; simpl.
  - exists [], 0. by rewrite app_nil_r.
  - destruct (send_text ws message) as [e|]; simpl.
    + exists [SendFailed ws message e], 1. simpl. by rewrite take_0.
    + destruct (IH (living ++ [ws]) (add_log [Sent ws message] n)) as (sends & k & Hl & Hk).
      exists (Sent ws message :: sends), (S k). split.
      * rewrite Hl. simpl. by rewrite <- app_assoc.
      * simpl. by rewrite Hk.
Qed.

(** X3. A broadcast that no other session interrupts (no connection
    joins or leaves the room while a send is awaited) reaches the room
    it is for and nothing else: in any state of the generator and
    whatever the transports do, the sends of one [push], in order, go to the members of the room from the last one
    stored towards the first, to each entry at most once, and all of them
    carry the message of the call. *)
Theorem push_sends_to_members_only send_text msg room_name n :
  (exists k,
     receivers (new_events n (snd (push send_text msg room_name n)))
     = take k (reverse (elements_of (room_value room_name n))))
  /\ (forall websocket,
        websocket ∈ receivers (new_events n (snd (push send_text msg room_name n))) ->
        websocket ∈ elements_of (room_value room_name n))
  /\ attempts (new_events n (snd (push send_text msg room_name n)))
     <= len (room_value room_name n)
  /\ Forall (send_of msg) (new_events n (snd (push send_text msg room_name n))).
Proof.
  assert (exists k,
     receivers (new_events n (snd (push send_text msg room_name n)))
     = take k (reverse (elements_of (room_value room_name n)))) as [k Hk].
  { unfold push, mbind, M_bind, asend_resume, raise, set_generator, new_events.
    destruct (generator n); simpl; try (exists 0; by rewrite drop_all).
    unfold until_yield. rewrite _notify_drain.
    destruct (drain_receivers send_text msg room_name
                (reverse (elements_of (room_value room_name
                   (mkNotifier (connections n) GenRunning (log n))))) []
                (mkNotifier (connections n) GenRunning (log n))) as (sends & k & Hl & Hk).
    exists k. simpl in Hl.
    destruct (drain send_text msg room_name _ _ _) as [[[]|e] n']; simpl in *;
      by rewrite Hl, drop_app_length. }
  destruct (push_log send_text msg room_name n) as (sends & Hl & Hf).
  assert (new_events n (snd (push send_text msg room_name n)) = sends) as Hnew.
  { unfold new_events. rewrite Hl. by rewrite drop_app_length. }
  split; [by exists k|]. split; [|split].
  - intros ws Hin. rewrite Hk in Hin. apply elem_of_take in Hin as (i & Hi & _).
    apply elem_of_reverse. by apply list_elem_of_lookup_2 in Hi.
  - rewrite Hnew in *.
    assert (attempts sends = length (receivers sends)) as ->.
    { clear -Hf. unfold attempts, receivers. induction Hf as [|ev evs Hev _ IH]; [done|].
      destruct Hev as [ws [->|[e ->]]]; simpl; by rewrite IH. }
    rewrite Hk, length_take, length_reverse. unfold len. lia.
  - by rewrite Hnew.
Qed.

Lemma drain_members send_text message room_name queue living n :
  elements_of (room_value room_name (snd (drain send_text message room_name queue living n)))
  ⊆+ living ++ queue.
Proof.
  revert living n. induction queue as [|ws queue IH]; intros living n; simpl.
  - rewrite room_value_set_room. simpl. by rewrite app_nil_r.
  - destruct (send_text ws message) as [e|]; simpl.
    + rewrite room_value_set_room. simpl. rewrite reverse_Permutation.
      apply submseteq_inserts_l. by apply submseteq_cons.
    + rewrite IH. by rewrite <- app_assoc.
Qed.

(** X4. A broadcast that no other session interrupts (no connection
    joins or leaves the room while a send is awaited) never adds an
    entry to a room and never doubles one: whatever the state of the
    generator and the outcome of the sends,
    the list of the room after [push] is a part of the list before it
    (as a multiset), and when [push] returns normally it is a
    rearrangement of it, so no member is lost. *)
Theorem push_members_stay send_text msg room_name n :
  elements_of (room_value room_name (snd (push send_text msg room_name n)))
  ⊆+ elements_of (room_value room_name n)
  /\ (fst (push send_text msg room_name n) = Ok tt ->
      elements_of (room_value room_name (snd (push send_text msg room_name n)))
      ≡ₚ elements_of (room_value room_name n)).
Proof.
  unfold push, mbind, M_bind, asend_resume, raise, set_generator.
  destruct (generator n); simpl; try done.
  set (nr := mkNotifier (connections n) GenRunning (log n)).
  unfold until_yield.
  destruct (sends_ok_or_failure send_text msg (elements_of (room_value room_name nr)))
    as [Hok|(before & f & after & e & Hl & Hok & Hf)].
  - rewrite _notify_all_ok by done. simpl.
    change (room_value room_name nr) with (room_value room_name n).
    unfold room_value at 1 3. simpl. rewrite lookup_insert_eq. simpl.
    pose proof (reverse_Permutation (elements_of (room_value room_name n))) as Hp.
    split; [by rewrite Hp|]. intros _.
    unfold room_value at 1. simpl. by rewrite lookup_insert_eq.
  - rewrite (_notify_first_failure _ _ _ _ before f after e) by done. simpl.
    change (room_value room_name nr) with (room_value room_name n) in Hl.
    unfold room_value at 1. simpl. rewrite lookup_insert_eq. simpl. rewrite Hl.
    split; [|done]. by apply submseteq_inserts_r.
Qed.

(** ** More on joining, leaving, listing *)

Lemma getitem_lookup_ne room_name r n :
  room_name <> r ->
  connections (snd (getitem room_name n)) !! r = connections n !! r.
Proof.
  intros Hne. unfold getitem. destruct (connections n !! room_name); simpl; [done|].
  by rewrite lookup_insert_ne.
Qed.

Lemma drain_lookup_ne send_text message room_name r queue living n :
  room_name <> r ->
  connections (snd (drain send_text message room_name queue living n)) !! r
  = connections n !! r.
Proof.
  intros Hne. revert living n. induction queue as [|ws queue IH]; intros living n; simpl.
  - by rewrite lookup_insert_ne.
  - destruct (send_text ws message); simpl.
    + by rewrite lookup_insert_ne.
    + by rewrite IH.
Qed.

(** X5. Rooms are independent: a call of [connect], [remove],
    [get_members] or [push] that names one room, whether it returns or
    raises, leaves the entry of every other room in the registry exactly
    as it was, also when there is none; the startup call touches no
    entry at all. *)
Theorem perform_other_rooms accept send_text n c r :
  call_room c <> Some r ->
  connections (perform accept send_text n c) !! r = connections n !! r.
Proof.
  intros Hr. destruct c as [|ws room_name|ws room_name|room_name|msg room_name];
    cbn [perform call_room] in *.
  - unfold prime_generator, set_generator, asend_raise, raise, mbind, M_bind.
    by destruct (generator n).
  - assert (room_name <> r) as Hne by congruence.
    destruct (accept ws) as [e|] eqn:Ha.
    + by rewrite (connect_refused _ _ _ _ _ Ha).
    + rewrite (connect_spec _ _ _ _ Ha). simpl. by rewrite lookup_insert_ne.
  - assert (room_name <> r) as Hne by congruence.
    unfold remove, mbind, M_bind. rewrite getitem_eq.
    destruct (room_value room_name n) as [|l]; simpl.
    + by apply getitem_lookup_ne.
    + destruct (list_remove ws l); simpl.
      * rewrite lookup_insert_ne by done. by apply getitem_lookup_ne.
      * by apply getitem_lookup_ne.
  - assert (room_name <> r) as Hne by congruence.
    unfold get_members. rewrite getitem_eq. simpl. by apply getitem_lookup_ne.
  - assert (room_name <> r) as Hne by congruence.
    unfold push, mbind, M_bind, asend_resume, raise, set_generator.
    destruct (generator n); simpl; try done.
    unfold until_yield. rewrite _notify_drain.
    pose proof (drain_lookup_ne send_text msg room_name r
                  (reverse (elements_of (room_value room_name
                     (mkNotifier (connections n) GenRunning (log n))))) []
                  (mkNotifier (connections n) GenRunning (log n)) Hne) as H.
    by destruct (drain send_text msg room_name _ _ _) as [[[]|e] n'].
Qed.

Lemma perform_other_rooms_witness :
  connections (perform accepting (broken 2) lobby (CallPush "hello" "lobby")) !! "r"
  = connections lobby !! "r"
  /\ connections (perform accepting healthy joined_once (CallRemove 7 "lobby")) !! "r"
     = connections joined_once !! "r".
Proof.
  split.
  - apply (perform_other_rooms accepting (broken 2) lobby (CallPush "hello" "lobby") "r").
    discriminate.
  - apply (perform_other_rooms accepting healthy joined_once (CallRemove 7 "lobby") "r").
    discriminate.
Defined.

Lemma list_remove_app x l1 l2 :
  x ∉ l1 -> list_remove x (l1 ++ x :: l2) = Some (l1 ++ l2).
Proof.
  induction l1 as [|y l1 IH]; intros Hx; simpl.
  - by rewrite decide_True.
  - apply not_elem_of_cons in Hx as [Hne Hx]. rewrite decide_False by done.
    by rewrite IH.
Qed.

(** X6. [remove] of a member takes out one entry, the first one of that
    connection: when the list of the room is [l1 ++ websocket :: l2]
    with no entry of the connection in [l1], the call returns normally
    and leaves [l1 ++ l2]; the other members keep their order, and the
    generator and the log are untouched. *)
Theorem remove_first_occurrence websocket room_name n l1 l2 :
  room_value room_name n = ConnList (l1 ++ websocket :: l2) ->
  websocket ∉ l1 ->
  fst (remove websocket room_name n) = Ok tt
  /\ room_value room_name (snd (remove websocket room_name n)) = ConnList (l1 ++ l2)
  /\ len (room_value room_name (snd (remove websocket room_name n)))
     = len (room_value room_name n) - 1
  /\ generator (snd (remove websocket room_name n)) = generator n
  /\ log (snd (remove websocket room_name n)) = log n.
Proof.
  intros Hv Hx. unfold remove, mbind, M_bind.
  rewrite (getitem_present _ _ _ Hv), (list_remove_app _ _ _ Hx). simpl.
  unfold room_value at 1 2. simpl. rewrite lookup_insert_eq. simpl.
  split; [done|]. split; [done|]. split; [|done].
  rewrite Hv. unfold len. simpl. rewrite !length_app. simpl. lia.
Qed.

Lemma remove_first_occurrence_witness :
  fst (remove 7 "r" joined_twice) = Ok tt
  /\ room_value "r" (snd (remove 7 "r" joined_twice)) = ConnList ([] ++ [7])
  /\ len (room_value "r" (snd (remove 7 "r" joined_twice)))
     = len (room_value "r" joined_twice) - 1
  /\ generator (snd (remove 7 "r" joined_twice)) = generator joined_twice
  /\ log (snd (remove 7 "r" joined_twice)) = log joined_twice.
Proof.
  apply (remove_first_occurrence 7 "r" joined_twice [] [7]).
  - reflexivity.
  - apply not_elem_of_nil.
Defined.

(** X7. Joining and then leaving is a round trip on the members: when
    the handshake is accepted and the connection was not in the room,
    [connect] followed by [remove] returns normally and the room has the
    members it had, in the same order (its entry is then a list, also
    when it was missing or the empty dict before). *)
Theorem connect_then_remove accept websocket room_name n :
  accept websocket = None ->
  websocket ∉ elements_of (room_value room_name n) ->
  fst (remove websocket room_name (snd (connect accept websocket room_name n))) = Ok tt
  /\ room_value room_name
       (snd (remove websocket room_name (snd (connect accept websocket room_name n))))
     = ConnList (elements_of (room_value room_name n)).
Proof.
  intros Ha Hnin. rewrite (connect_spec _ _ _ _ Ha). cbn [snd].
  set (n1 := set_room _ _ _).
  assert (room_value room_name n1 =
          ConnList (elements_of (room_value room_name n) ++ websocket :: [])) as Hv
    by apply room_value_set_room.
  unfold remove, mbind, M_bind.
  rewrite (getitem_present _ _ _ Hv), (list_remove_app _ _ _ Hnin). simpl.
  unfold room_value at 1. simpl. rewrite lookup_insert_eq. simpl.
  by rewrite app_nil_r.
Qed.

Lemma connect_then_remove_witness :
  fst (remove 4 "lobby" (snd (connect accepting 4 "lobby" lobby))) = Ok tt
  /\ room_value "lobby" (snd (remove 4 "lobby" (snd (connect accepting 4 "lobby" lobby))))
     = ConnList (elements_of (room_value "lobby" lobby)).
Proof.
  apply (connect_then_remove accepting 4 "lobby" lobby).
  - reflexivity.
  - change (elements_of (room_value "lobby" lobby)) with [1; 2; 3].
    intros H. repeat (apply elem_of_cons in H as [H|H]; [discriminate H|]).
    by apply not_elem_of_nil in H.
Defined.

(** X8. [get_members] never returns None and settles after one call: in
    every state it returns the value the registry holds for the room (the
    empty dict if it holds none), so that the fallback to [[]] on line
    193 is never taken, and a second call returns the same value and
    changes nothing any more. *)
Theorem get_members_twice room_name n :
  fst (get_members room_name n) = Ok (Some (room_value room_name n))
  /\ get_members room_name (snd (get_members room_name n))
     = (Ok (Some (room_value room_name n)), snd (get_members room_name n))
  /\ (forall r, room_value r (snd (get_members room_name n)) = room_value r n).
Proof.
  unfold get_members. rewrite getitem_eq. cbn [fst snd]. rewrite getitem_idem.
  split; [done|]. split; [done|]. intros r. apply getitem_room_value.
Qed.

(** ** Sessions that end badly *)

Section EndpointFacts.

Variable accept : WebSocket -> option exn.
Variable send_text : WebSocket -> string -> option exn.
Variable json_loads : string -> option parsed.
Variable insert_message : value -> value -> value -> option exn.

(** A turn of the loop on a payload that cannot be handled. *)
Lemma loop_body_malformed websocket room_name data n :
  malformed json_loads data ->
  loop_body accept send_text json_loads insert_message websocket room_name data n =
  match json_loads data with
  | None => (Raise JSONDecodeError, n)
  | Some JOther => (Raise TypeError, n)
  | Some (JDict _) =>
      if contains websocket (room_value room_name n)
      then (Raise KeyError, snd (getitem room_name n))
      else match accept websocket with
           | Some e => (Raise e, snd (getitem room_name n))
           | None =>
               (Raise KeyError,
                add_log [Accepted websocket]
                  (set_room room_name
                     (ConnList (elements_of (room_value room_name n) ++ [websocket])) n))
           end
  end.
Proof.
  intros Hbad. unfold malformed in Hbad. unfold loop_body, load_payload.
  destruct (json_loads data) as [[d|]|] eqn:Hj; [|done..].
  unfold mbind at 1, M_bind at 1, mret at 1, M_ret at 1.
  unfold mbind at 1, M_bind at 1. rewrite sender_absent_spec.
  set (d' := <["room_name" := VStr room_name]> d).
  assert (forall n0, call_insert_message d' n0 = (Raise KeyError, n0)) as Hcall.
  { intros n0. unfold call_insert_message, subscript, d'.
    assert ("room_name" <> "message") as H1 by (intros ?; discriminate).
    assert ("room_name" <> "sender") as H2 by (intros ?; discriminate).
    unfold mbind, M_bind, mret, M_ret, raise.
    rewrite (lookup_insert_ne _ _ _ _ H1).
    destruct (d !! "message") as [m|] eqn:Hm; [|done].
    rewrite (lookup_insert_ne _ _ _ _ H2).
    destruct Hbad as [Hbad|Hbad]; [done|]. by rewrite Hbad. }
  destruct (contains websocket (room_value room_name n)) eqn:Hin; cbn [negb snd].
  - unfold mbind, M_bind, mret, M_ret. by rewrite Hcall.
  - destruct (accept websocket) as [e|] eqn:Ha.
    + unfold mbind at 1, M_bind at 1. by rewrite (connect_refused _ _ _ _ _ Ha).
    + unfold mbind at 1, M_bind at 1. rewrite (connect_spec _ _ _ _ Ha).
      unfold mbind, M_bind. rewrite Hcall.
      rewrite getitem_room_value.
      by rewrite !set_room_add_log, getitem_then_set.
Qed.

(** X9. In any turn of the session loop, a payload that json.loads
    rejects, that is not a JSON object, or that lacks the key "message"
    or "sender" ends the session with an exception: nothing is stored
    and nothing is sent, and the payloads after it are never read. When
    the connection is in the list of its room, the exception is
    JSONDecodeError, TypeError or KeyError and the notifier is as it
    was: the handler catches WebSocketDisconnect only, so the connection
    stays in the list. When the connection is absent, the exception is
    one of these three as well, unless the payload is an object and the
    handshake of the re-join, which comes before line 198, raises. *)
Theorem malformed_payload_ends_session websocket room_name data rest n :
  malformed json_loads data ->
  (exists e,
     fst (try_statement accept send_text json_loads insert_message
            websocket room_name (Ok data :: rest) n) = Raise e)
  /\ Forall (fun ev => ev = Accepted websocket)
       (new_events n
          (snd (try_statement accept send_text json_loads insert_message
                  websocket room_name (Ok data :: rest) n)))
  /\ (websocket ∈ elements_of (room_value room_name n) ->
      fst (try_statement accept send_text json_loads insert_message
             websocket room_name (Ok data :: rest) n)
      ∈ [Raise JSONDecodeError; Raise TypeError; Raise KeyError]
      /\ snd (try_statement accept send_text json_loads insert_message
                websocket room_name (Ok data :: rest) n) = n)
  /\ (websocket ∉ elements_of (room_value room_name n) ->
      fst (try_statement accept send_text json_loads insert_message
             websocket room_name (Ok data :: rest) n)
      ∈ [Raise JSONDecodeError; Raise TypeError; Raise KeyError]
      \/ exists d e, json_loads data = Some (JDict d) /\ accept websocket = Some e).
Proof.
  intros Hbad. unfold try_statement, except_disconnect. cbn [while_true].
  unfold mbind, M_bind. rewrite (loop_body_malformed _ _ _ _ Hbad).
  assert (new_events n n = []) as Hnone by (unfold new_events; by rewrite drop_all).
  assert (new_events n (snd (getitem room_name n)) = []) as Hnone'.
  { unfold new_events. rewrite (proj2 (getitem_frame room_name n)). by rewrite drop_all. }
  destruct (json_loads data) as [[d|]|] eqn:Hj.
  - destruct (contains websocket (room_value room_name n)) eqn:Hin.
    + apply bool_decide_eq_true in Hin. rewrite decide_False by done. cbn [fst snd].
      split; [by eexists|]. split; [by rewrite Hnone'|]. split; [|done].
      intros _. split; [do 2 right; left|].
      destruct (room_value room_name n) as [|l] eqn:Hv.
      * by apply not_elem_of_nil in Hin.
      * by rewrite (getitem_present _ _ _ Hv).
    + apply bool_decide_eq_false in Hin.
      destruct (accept websocket) as [e|] eqn:Ha.
      * assert (exists e' n',
                  (if decide (e = WebSocketDisconnect)
                   then remove websocket room_name (snd (getitem room_name n))
                   else (Raise e, snd (getitem room_name n))) = (Raise e', n')
                  /\ new_events n n' = []) as (e' & n' & -> & Hev).
        { destruct (decide (e = WebSocketDisconnect)); [|by eexists _, _].
          rewrite remove_absent by by rewrite getitem_room_value.
          eexists _, _. split; [done|]. unfold new_events.
          rewrite (proj2 (getitem_frame _ _)), (proj2 (getitem_frame _ _)).
          by rewrite drop_all. }
        cbn [fst snd]. split; [by eexists|]. split; [by rewrite Hev|].
        split; [done|]. intros _. right. by exists d, e.
      * rewrite decide_False by done. cbn [fst snd].
        split; [by eexists|]. split.
        { unfold new_events. simpl. rewrite drop_app_length. by constructor. }
        split; [done|]. intros _. left. do 2 right. left.
  - rewrite decide_False by done. cbn [fst snd].
    split; [by eexists|]. split; [by rewrite Hnone|].
    split; [intros _; split; [right; left|done]|]. intros _. left. right. left.
  - rewrite decide_False by done. cbn [fst snd].
    split; [by eexists|]. split; [by rewrite Hnone|].
    split; [intros _; split; [left|done]|]. intros _. left. left.
Qed.

(** X10. The first handshake is outside the [try]: when [accept] raises,
    whatever it raises and the disconnect included, the session ends
    with that exception and has changed nothing; no payload is read and
    [remove] is not called. *)
Theorem refused_handshake_ends_session websocket room_name received n e :
  accept websocket = Some e ->
  websocket_endpoint accept send_text json_loads insert_message
    websocket room_name received n = (Raise e, n).
Proof.
  intros Ha. unfold websocket_endpoint, mbind, M_bind.
  by rewrite (connect_refused _ _ _ _ _ Ha).
Qed.

End EndpointFacts.

Lemma malformed_payload_ends_session_witness :
  (exists e,
     fst (try_statement accepting healthy parse_partial stores 7 "r"
            [Ok "hi from nobody"; Ok "hi from A"] joined_once) = Raise e)
  /\ Forall (fun ev => ev = Accepted 7)
       (new_events joined_once
          (snd (try_statement accepting healthy parse_partial stores 7 "r"
                  [Ok "hi from nobody"; Ok "hi from A"] joined_once)))
  /\ (7 ∈ elements_of (room_value "r" joined_once) ->
      fst (try_statement accepting healthy parse_partial stores 7 "r"
             [Ok "hi from nobody"; Ok "hi from A"] joined_once)
      ∈ [Raise JSONDecodeError; Raise TypeError; Raise KeyError]
      /\ snd (try_statement accepting healthy parse_partial stores 7 "r"
                [Ok "hi from nobody"; Ok "hi from A"] joined_once) = joined_once)
  /\ (7 ∉ elements_of (room_value "r" joined_once) ->
      fst (try_statement accepting healthy parse_partial stores 7 "r"
             [Ok "hi from nobody"; Ok "hi from A"] joined_once)
      ∈ [Raise JSONDecodeError; Raise TypeError; Raise KeyError]
      \/ exists d e, parse_partial "hi from nobody" = Some (JDict d)
                     /\ accepting 7 = Some e).
Proof.
  apply (malformed_payload_ends_session accepting healthy parse_partial stores 7 "r"
           "hi from nobody" [Ok "hi from A"] joined_once).
  right. reflexivity.
Defined.

Lemma refused_handshake_ends_session_witness :
  websocket_endpoint closing healthy parse_hi stores 0 "r"
    [Ok "hi from A"; Raise WebSocketDisconnect] lobby
  = (Raise WebSocketDisconnect, lobby).
Proof.
  apply (refused_handshake_ends_session closing healthy parse_hi stores 0 "r"
           [Ok "hi from A"; Raise WebSocketDisconnect] lobby WebSocketDisconnect).
  reflexivity.
Defined.

(** ** A send that raises the disconnect *)

(** X11. A receiver whose [send_text] raises WebSocketDisconnect during
    a broadcast is taken for the sender, in every state and whatever
    other sessions have done while the send was awaited. The exception
    closes the generator and leaves [push] inside the [try] of the
    sending session, whose handler calls [remove] for the sender's own
    connection on the list of the room as it is then: what the
    broadcast has not popped, with what has joined or left since. If
    the sender is in that list its first entry is taken out and the
    session returns normally; if not, [remove] raises ValueError
    (AttributeError on the empty dict). The failing receiver and the
    connections served before it are not put back, and no other room
    changes. *)
Theorem send_disconnect_removes_sender json_loads s websocket room_name data
    receiver living_connections :
  sessions s !! websocket = Some (room_name, AwaitSend data receiver living_connections) ->
  exists r n',
    step json_loads s (Resume websocket (SendDone (Some WebSocketDisconnect)))
    = Some (mkServer n' (<[websocket := (room_name, Finished r)]> (sessions s)))
    /\ generator n' = GenClosed
    /\ log n' = log (notifier s) ++ [SendFailed receiver data WebSocketDisconnect]
    /\ (forall r', r' <> room_name -> room_value r' n' = room_value r' (notifier s))
    /\ match room_value room_name (notifier s) with
       | ConnList l =>
           match list_remove websocket l with
           | Some l' => r = Ok tt /\ room_value room_name n' = ConnList l'
           | None => r = Raise ValueError /\ room_value room_name n' = ConnList l
           end
       | EmptyDict => r = Raise AttributeError /\ room_value room_name n' = EmptyDict
       end.
Proof.
  intros Hs. cbn [step]. rewrite Hs. cbn [resume in_try].
  unfold mbind, M_bind, emit, asend_raise, mbind, M_bind, set_generator, raise.
  cbn [generator_exit settle andb fst snd connections generator log].
  rewrite bool_decide_eq_true_2 by done.
  set (n1 := mkNotifier (connections (notifier s)) GenClosed
               (log (notifier s) ++ [SendFailed receiver data WebSocketDisconnect])).
  assert (forall r', room_value r' n1 = room_value r' (notifier s)) as Hsame by done.
  unfold remove, mbind, M_bind. rewrite getitem_eq, Hsame.
  pose proof (getitem_frame room_name n1) as [Hgen Hlog].
  pose proof (getitem_room_value room_name) as Hrv.
  destruct (room_value room_name (notifier s)) as [|l] eqn:Hv; cbn [fst snd].
  - eexists _, _. split; [done|]. split; [done|]. split; [done|].
    split; [intros r' _; by rewrite Hrv|]. split; [done|]. by rewrite Hrv, Hsame.
  - destruct (list_remove websocket l) as [l'|] eqn:Hl; cbn [fst snd].
    + eexists _, _. split; [done|]. unfold setitem. cbn [fst snd].
      split; [done|]. split; [done|]. split.
      * intros r' Hne. unfold room_value at 1. simpl.
        rewrite lookup_insert_ne by done.
        fold (room_value r' (snd (getitem room_name n1))). by rewrite Hrv.
      * split; [done|]. unfold room_value. simpl. by rewrite lookup_insert_eq.
    + eexists _, _. split; [done|]. split; [done|]. split; [done|].
      split; [intros r' _; by rewrite Hrv|]. split; [done|]. by rewrite Hrv, Hsame.
Qed.

Lemma send_disconnect_removes_sender_witness :
  exists r n',
    step parse_hi first_send_awaited (Resume 0 (SendDone (Some WebSocketDisconnect)))
    = Some (mkServer n' (<[0 := ("r", Finished r)]> (sessions first_send_awaited)))
    /\ generator n' = GenClosed
    /\ log n' = log (notifier first_send_awaited)
                ++ [SendFailed 2 "hi from A" WebSocketDisconnect]
    /\ (forall r', r' <> "r" ->
          room_value r' n' = room_value r' (notifier first_send_awaited))
    /\ match room_value "r" (notifier first_send_awaited) with
       | ConnList l =>
           match list_remove 0 l with
           | Some l' => r = Ok tt /\ room_value "r" n' = ConnList l'
           | None => r = Raise ValueError /\ room_value "r" n' = ConnList l
           end
       | EmptyDict => r = Raise AttributeError /\ room_value "r" n' = EmptyDict
       end.
Proof.
  apply (send_disconnect_removes_sender parse_hi first_send_awaited 0 "r" "hi from A" 2 []).
  reflexivity.
Defined.

(** ** Two broadcasts at once *)

(** X12. The generator serves one broadcast at a time and does not
    queue: when the store of a session returns while the broadcast of
    another session is suspended in a send, [asend] raises RuntimeError
    in [push] (asynchronous generator is already running). The payload
    has been stored and is sent to nobody, the notifier is as it was,
    and since the handler catches the disconnect only, the session ends
    with the RuntimeError and its connection stays in the room. *)
Theorem push_during_broadcast_raises json_loads s websocket room_name data args :
  sessions s !! websocket = Some (room_name, AwaitInsert data args) ->
  generator (notifier s) = GenRunning ->
  step json_loads s (Resume websocket (InsertDone None))
  = Some (mkServer (notifier s)
            (<[websocket := (room_name, Finished (Raise RuntimeError))]> (sessions s))).
Proof.
  intros Hs Hg. cbn [step]. rewrite Hs. cbn [resume in_try].
  unfold mbind, M_bind, asend_resume. rewrite Hg. by destruct s.
Qed.

Lemma push_during_broadcast_raises_witness :
  step parse_hi
    (mkServer (mkNotifier {[ "r" := ConnList [0] ]} GenRunning
                 [Accepted 0; Accepted 1])
       [("r", AwaitSend "hi from A" 1 []);
        ("r", AwaitInsert "hi from A" (VStr "hi", VStr "A", VStr "r"))])
    (Resume 1 (InsertDone None))
  = Some (mkServer (mkNotifier {[ "r" := ConnList [0] ]} GenRunning
                      [Accepted 0; Accepted 1])
            (<[1 := ("r", Finished (Raise RuntimeError))]>
               [("r", AwaitSend "hi from A" 1 []);
                ("r", AwaitInsert "hi from A" (VStr "hi", VStr "A", VStr "r"))])).
Proof.
  apply (push_during_broadcast_raises parse_hi
           (mkServer (mkNotifier {[ "r" := ConnList [0] ]} GenRunning
                        [Accepted 0; Accepted 1])
              [("r", AwaitSend "hi from A" 1 []);
               ("r", AwaitInsert "hi from A" (VStr "hi", VStr "A", VStr "r"))])
           1 "r" "hi from A" (VStr "hi", VStr "A", VStr "r")).
  - reflexivity.
  - reflexivity.
Defined.

(** X13. Under every schedule of the event loop at most one session is
    inside [_notify]: two sessions found suspended in a send are the
    same session, and the generator is then running. *)
Theorem one_broadcast_at_a_time json_loads schedule s i j ri rj di dj wi wj li lj :
  run json_loads Server_init schedule = Some s ->
  sessions s !! i = Some (ri, AwaitSend di wi li) ->
  sessions s !! j = Some (rj, AwaitSend dj wj lj) ->
  i = j /\ generator (notifier s) = GenRunning.
Proof.
  intros Hrun Hi Hj. pose proof (members_kept_run json_loads schedule s Hrun) as Hinv.
  unfold members_kept in Hinv. destruct (generator (notifier s)).
  - destruct Hinv as [Hno _]. by specialize (Hno i ri _ Hi).
  - destruct Hinv as [Hno _]. by specialize (Hno i ri _ Hi).
  - destruct Hinv as (b & r & d & w & l & _ & Hone & _). split; [|done].
    rewrite (Hone i ri _ Hi eq_refl). by rewrite (Hone j rj _ Hj eq_refl).
  - by specialize (Hinv i ri _ Hi).
Qed.

Lemma one_broadcast_at_a_time_witness :
  0 = 0 /\ generator (mkNotifier {[ "r" := ConnList [] ]} GenRunning
              [Accepted 0; InsertMessage (VStr "hi") (VStr "A") (VStr "r")]) = GenRunning.
Proof.
  apply (one_broadcast_at_a_time parse_hi
           [Startup; Open "r"; Resume 0 (AcceptDone None);
            Resume 0 (ReceiveDone (Ok "hi from A")); Resume 0 (InsertDone None)]
           (mkServer
              (mkNotifier {[ "r" := ConnList [] ]} GenRunning
                 [Accepted 0; InsertMessage (VStr "hi") (VStr "A") (VStr "r")])
              [("r", AwaitSend "hi from A" 0 [])])
           0 0 "r" "r" "hi from A" "hi from A" 0 0 [] []).
  - vm_compute. reflexivity.
  - reflexivity.
  - reflexivity.
Defined.

(** A broadcast that runs alone, from the store that returns to the
    next receive. *)
Lemma solo_push_is_push_example :
  solo_push healthy parse_hi
    (mkServer (mkNotifier {[ "r" := ConnList [0; 1] ]} GenSuspended [])
       [("r", AwaitReceive);
        ("r", AwaitInsert "hi from A" (VStr "hi", VStr "A", VStr "r"))]) 1
  = Some (mkServer
            (snd (after_push 1 "r"
                    (push healthy "hi from A" "r"
                       (mkNotifier {[ "r" := ConnList [0; 1] ]} GenSuspended []))))
            (<[1 := ("r",
                 fst (after_push 1 "r"
                        (push healthy "hi from A" "r"
                           (mkNotifier {[ "r" := ConnList [0; 1] ]} GenSuspended []))))]>
               [("r", AwaitReceive);
                ("r", AwaitInsert "hi from A" (VStr "hi", VStr "A", VStr "r"))])).
Proof.
  apply (solo_push_is_push healthy parse_hi
           (mkServer (mkNotifier {[ "r" := ConnList [0; 1] ]} GenSuspended [])
              [("r", AwaitReceive);
               ("r", AwaitInsert "hi from A" (VStr "hi", VStr "A", VStr "r"))])
           1 "r" "hi from A" (VStr "hi", VStr "A", VStr "r")).
  reflexivity.
Defined.

(** The second of two sessions of room "r" loses its transport while
    both wait in a receive. *)
Lemma disconnect_outside_broadcast_example :
  exists s' r,
    step parse_hi
      (mkServer (mkNotifier {[ "r" := ConnList [0; 1] ]} GenSuspended [])
         [("r", AwaitReceive); ("r", AwaitReceive)])
      (Resume 1 (ReceiveDone (Raise WebSocketDisconnect))) = Some s'
    /\ sessions s' !! 1 = Some ("r", Finished r)
    /\ 1 ∉ elements_of (room_value "r" (notifier s')).
Proof.
  apply (disconnect_outside_broadcast parse_hi
           (mkServer (mkNotifier {[ "r" := ConnList [0; 1] ]} GenSuspended [])
              [("r", AwaitReceive); ("r", AwaitReceive)]) 1 "r").
  - reflexivity.
  - change (NoDup [0; 1]). apply NoDup_cons. split.
    + intros H. apply elem_of_cons in H as [H|H]; [discriminate H|].
      by apply not_elem_of_nil in H.
    + apply NoDup_singleton.
Defined.

(** ** Histories: who is sent to *)

Lemma list_remove_subset x y l l' : list_remove x l = Some l' -> y ∈ l' -> y ∈ l.
Proof.
  revert l'. induction l as [|z l IH]; intros l' H Hy; simpl in H; [done|].
  destruct (decide (x = z)) as [->|Hne].
  - injection H as <-. by right.
  - destruct (list_remove x l) as [l0|] eqn:E; [|done]. injection H as <-.
    apply elem_of_cons in Hy as [->|Hy]; [left|right]. by apply (IH l0).
Qed.

Lemma push_log_receivers send_text msg room_name n :
  exists sends,
    log (snd (push send_text msg room_name n)) = log n ++ sends
    /\ forall websocket, websocket ∈ receivers sends ->
         websocket ∈ elements_of (room_value room_name n).
Proof.
  unfold push, mbind, M_bind, asend_resume, raise, set_generator.
  destruct (generator n); simpl;
    try (exists []; split; [by rewrite app_nil_r|]; intros ? H; by apply not_elem_of_nil in H).
  unfold until_yield. rewrite _notify_drain.
  destruct (drain_receivers send_text msg room_name
              (reverse (elements_of (room_value room_name
                 (mkNotifier (connections n) GenRunning (log n))))) []
              (mkNotifier (connections n) GenRunning (log n))) as (sends & k & Hl & Hk).
  exists sends. simpl in Hl. split.
  - by destruct (drain send_text msg room_name _ _ _) as [[[]|e] n'].
  - intros ws Hin. rewrite Hk in Hin. apply elem_of_take in Hin as (i & Hi & _).
    apply elem_of_reverse. by apply list_elem_of_lookup_2 in Hi.
Qed.

Lemma push_members_elem send_text msg room_name n r websocket :
  websocket ∈ elements_of (room_value r (snd (push send_text msg room_name n))) ->
  websocket ∈ elements_of (room_value r n).
Proof.
  unfold push, mbind, M_bind, asend_resume, raise, set_generator.
  destruct (generator n); simpl; try done.
  unfold until_yield. rewrite _notify_drain.
  set (nr := mkNotifier (connections n) GenRunning (log n)).
  set (queue := reverse (elements_of (room_value room_name nr))).
  assert (room_value r (snd (drain send_text msg room_name queue [] nr)) =
          room_value r (match drain send_text msg room_name queue [] nr with
                        | (Ok _, n') => snd (asend_yield n')
                        | (Raise e, n') => snd (asend_raise (A:=unit) e n')
                        end)) as Heq.
  { by destruct (drain send_text msg room_name queue [] nr) as [[[]|e] n']. }
  intros Hin.
  assert (websocket ∈ elements_of
            (room_value r (snd (drain send_text msg room_name queue [] nr)))) as Hin'.
  { rewrite Heq. by destruct (drain send_text msg room_name queue [] nr) as [[[]|e] n']. }
  clear Hin Heq. destruct (decide (room_name = r)) as [<-|Hne].
  - pose proof (drain_members send_text msg room_name queue [] nr) as Hsub.
    apply (elem_of_submseteq _ _ _ Hin') in Hsub. simpl in Hsub.
    unfold queue in Hsub. apply elem_of_reverse. exact Hsub.
  - by rewrite (drain_room_value_ne send_text msg room_name r queue [] nr Hne) in Hin'.
Qed.

Section Accepted.

Variable accept : WebSocket -> option exn.
Variable send_text : WebSocket -> string -> option exn.

Lemma perform_accepted n c :
  (forall r w, w ∈ elements_of (room_value r n) -> Accepted w ∈ log n) ->
  exists evs,
    log (perform accept send_text n c) = log n ++ evs
    /\ (forall w, w ∈ receivers evs -> Accepted w ∈ log n)
    /\ (forall r w, w ∈ elements_of (room_value r (perform accept send_text n c)) ->
          Accepted w ∈ log n ++ evs).
Proof.
  intros Hmem.
  destruct c as [|ws room_name|ws room_name|room_name|msg room_name]; cbn [perform].
  - exists []. rewrite app_nil_r.
    assert (connections (snd (prime_generator n)) = connections n
            /\ log (snd (prime_generator n)) = log n) as [Hc Hl].
    { unfold prime_generator, set_generator, asend_raise, raise, mbind, M_bind.
      by destruct (generator n). }
    split; [done|]. split; [intros w H; by apply not_elem_of_nil in H|].
    intros r w. unfold room_value. rewrite Hc. apply Hmem.
  - destruct (accept ws) as [e|] eqn:Ha.
    + rewrite (connect_refused _ _ _ _ _ Ha). exists []. rewrite app_nil_r.
      split; [done|]. split; [intros w H; by apply not_elem_of_nil in H|]. apply Hmem.
    + rewrite (connect_spec _ _ _ _ Ha). exists [Accepted ws]. cbn [snd].
      split; [done|]. split; [intros w H; by apply not_elem_of_nil in H|].
      intros r w Hin. apply elem_of_app.
      destruct (decide (room_name = r)) as [<-|Hne].
      * rewrite room_value_set_room in Hin. simpl in Hin.
        apply elem_of_app in Hin as [Hin|Hin].
        -- left. by apply (Hmem room_name).
        -- right. apply list_elem_of_singleton in Hin as ->. left.
      * rewrite room_value_set_room_ne in Hin by done. left. by apply (Hmem r).
  - exists []. rewrite app_nil_r.
    assert (log (snd (remove ws room_name n)) = log n
            /\ forall r w, w ∈ elements_of (room_value r (snd (remove ws room_name n))) ->
                 w ∈ elements_of (room_value r n)) as [Hl Hsub].
    { unfold remove, mbind, M_bind. rewrite getitem_eq.
      pose proof (getitem_frame room_name n) as [_ Hlog].
      destruct (room_value room_name n) as [|l] eqn:Hv; simpl.
      - split; [done|]. intros r w. by rewrite getitem_room_value.
      - destruct (list_remove ws l) as [l'|] eqn:Hr; simpl.
        + split; [done|]. intros r w Hin.
          destruct (decide (room_name = r)) as [<-|Hne].
          * unfold room_value in Hin. simpl in Hin. rewrite lookup_insert_eq in Hin.
            rewrite Hv. simpl in *. by apply (list_remove_subset ws w l l').
          * unfold room_value in Hin. simpl in Hin.
            rewrite lookup_insert_ne in Hin by done.
            fold (room_value r (snd (getitem room_name n))) in Hin.
            by rewrite getitem_room_value in Hin.
        + split; [done|]. intros r w. by rewrite getitem_room_value. }
    split; [done|]. split; [intros w H; by apply not_elem_of_nil in H|].
    intros r w Hin. by apply (Hmem r), Hsub.
  - exists []. rewrite app_nil_r. unfold get_members. rewrite getitem_eq. cbn [snd].
    pose proof (getitem_frame room_name n) as [_ Hlog].
    split; [done|]. split; [intros w H; by apply not_elem_of_nil in H|].
    intros r w. rewrite getitem_room_value. apply Hmem.
  - destruct (push_log_receivers send_text msg room_name n) as (sends & Hl & Hrecv).
    exists sends. split; [done|]. split.
    + intros w Hw. by apply (Hmem room_name), Hrecv.
    + intros r w Hin. apply elem_of_app. left. apply (Hmem r).
      by apply (push_members_elem send_text msg room_name n r w).
Qed.

(** X14. Messages go to accepted connections only: after any sequence
    of calls on a new notifier, in whatever order and whatever the
    transports do, every send recorded in the log, to a connection [w],
    has the completed handshake of [w] before it in the log; and every
    member of every room has completed a handshake. *)
Theorem sends_only_to_accepted calls :
  (forall i ev w,
     log (history accept send_text calls) !! i = Some ev ->
     w ∈ receivers [ev] ->
     Accepted w ∈ take i (log (history accept send_text calls)))
  /\ (forall r w,
        w ∈ elements_of (room_value r (history accept send_text calls)) ->
        Accepted w ∈ log (history accept send_text calls)).
Proof.
  unfold history.
  assert (forall n,
    (forall i ev w, log n !! i = Some ev -> w ∈ receivers [ev] ->
                    Accepted w ∈ take i (log n)) ->
    (forall r w, w ∈ elements_of (room_value r n) -> Accepted w ∈ log n) ->
    (forall i ev w, log (foldl (perform accept send_text) n calls) !! i = Some ev ->
                    w ∈ receivers [ev] ->
                    Accepted w ∈ take i (log (foldl (perform accept send_text) n calls)))
    /\ (forall r w,
          w ∈ elements_of (room_value r (foldl (perform accept send_text) n calls)) ->
          Accepted w ∈ log (foldl (perform accept send_text) n calls))) as H.
  { induction calls as [|c calls IH]; intros n Hsent Hmem; [done|].
    cbn [foldl]. destruct (perform_accepted n c Hmem) as (evs & Hl & Hrecv & Hmem').
    apply IH.
    - rewrite Hl. intros i ev w Hi Hw.
      destruct (decide (i < length (log n))) as [Hlt|Hge].
      + rewrite lookup_app_l in Hi by done.
        rewrite take_app_le by lia. by apply (Hsent i ev w).
      + rewrite lookup_app_r in Hi by lia.
        rewrite take_app_ge by lia. apply elem_of_app. left.
        apply Hrecv. apply list_elem_of_lookup_2 in Hi.
        apply list_elem_of_split in Hi as (l1 & l2 & ->).
        rewrite receivers_app. apply elem_of_app. right.
        change (ev :: l2) with ([ev] ++ l2). rewrite receivers_app.
        apply elem_of_app. by left.
    - rewrite Hl. apply Hmem'. }
  apply H.
  - intros i ev w Hi. by destruct i.
  - intros r w Hin. unfold room_value in Hin. simpl in Hin.
    rewrite lookup_empty in Hin. by apply not_elem_of_nil in Hin.
Qed.

(** X15. Without the [asend(None)] of the startup event nothing is ever
    broadcast: in a history with no startup call the generator stays as
    [__init__] made it, every [push] raises TypeError, and the log holds
    no send. *)
Theorem no_send_before_startup calls :
  CallStartup ∉ calls ->
  generator (history accept send_text calls) = GenCreated
  /\ receivers (log (history accept send_text calls)) = []
  /\ forall msg room_name,
       push send_text msg room_name (history accept send_text calls)
       = (Raise TypeError, history accept send_text calls).
Proof.
  intros Hno. unfold history.
  assert (forall n, generator n = GenCreated -> receivers (log n) = [] ->
            generator (foldl (perform accept send_text) n calls) = GenCreated
            /\ receivers (log (foldl (perform accept send_text) n calls)) = []) as H.
  { induction calls as [|c calls IH]; intros n Hg Hr; [done|].
    apply not_elem_of_cons in Hno as [Hc Hno]. cbn [foldl]. apply (IH Hno).
    - destruct c as [|ws room_name|ws room_name|room_name|msg room_name];
        cbn [perform]; [done| | | |].
      + destruct (accept ws) as [e|] eqn:Ha.
        * by rewrite (connect_refused _ _ _ _ _ Ha).
        * by rewrite (connect_spec _ _ _ _ Ha).
      + unfold remove, mbind, M_bind. rewrite getitem_eq.
        pose proof (getitem_frame room_name n) as [Hgen _].
        destruct (room_value room_name n) as [|l]; simpl; [congruence|].
        destruct (list_remove ws l); simpl; congruence.
      + unfold get_members. rewrite getitem_eq. simpl.
        pose proof (getitem_frame room_name n) as [Hgen _]. congruence.
      + unfold push, mbind, M_bind, asend_resume. by rewrite Hg.
    - destruct c as [|ws room_name|ws room_name|room_name|msg room_name];
        cbn [perform]; [done| | | |].
      + destruct (accept ws) as [e|] eqn:Ha.
        * by rewrite (connect_refused _ _ _ _ _ Ha).
        * rewrite (connect_spec _ _ _ _ Ha). simpl. rewrite receivers_app, Hr. done.
      + unfold remove, mbind, M_bind. rewrite getitem_eq.
        pose proof (getitem_frame room_name n) as [_ Hlog].
        destruct (room_value room_name n) as [|l]; simpl; [congruence|].
        destruct (list_remove ws l); simpl; congruence.
      + unfold get_members. rewrite getitem_eq. simpl.
        pose proof (getitem_frame room_name n) as [_ Hlog]. congruence.
      + unfold push, mbind, M_bind, asend_resume. by rewrite Hg. }
  destruct (H Notifier_init eq_refl eq_refl) as [Hg Hr].
  split; [done|]. split; [done|]. intros msg room_name.
  unfold push, mbind, M_bind, asend_resume. by rewrite Hg.
Qed.

End Accepted.

Lemma no_send_before_startup_witness :
  generator (history accepting healthy [CallConnect 1 "r"; CallPush "hello" "r"])
  = GenCreated
  /\ receivers (log (history accepting healthy [CallConnect 1 "r"; CallPush "hello" "r"]))
     = []
  /\ forall msg room_name,
       push healthy msg room_name
         (history accepting healthy [CallConnect 1 "r"; CallPush "hello" "r"])
       = (Raise TypeError,
          history accepting healthy [CallConnect 1 "r"; CallPush "hello" "r"]).
Proof.
  apply (no_send_before_startup accepting healthy
           [CallConnect 1 "r"; CallPush "hello" "r"]).
  intros H. repeat (apply elem_of_cons in H as [H|H]; [discriminate H|]).
  by apply not_elem_of_nil in H.
Defined.

(** ** Startup *)

Section StartupFacts.

Variable db : db_call -> option raised.

Local Ltac made_calls k :=
  split; [reflexivity|]; split; [discriminate|]; exists k; split; [lia|reflexivity].

(** X16. Once the client is connected, [startup_event] advances the
    generator to its first yield before it touches a collection, so
    that the generator is ready whatever the database calls after it
    do; the registry is not touched, CollectionInvalid never leaves the
    function, and the database calls made are the first [k] of the six
    in the order of the source, with [k] at least 3. *)
Theorem startup_event_primes_generator n :
  db ConnectToMongo = None ->
  db GetNosqlDb = None ->
  generator n = GenCreated ->
  (startup_event db n).2.1 = mkNotifier (connections n) GenSuspended (log n)
  /\ (startup_event db n).1 <> Some CollectionInvalid
  /\ exists k, 3 <= k
       /\ (startup_event db n).2.2
          = take k [ConnectToMongo; GetNosqlDb;
                    CreateCollection "users"; CreateCollection "rooms";
                    CreateIndex "users" "username"; CreateIndex "rooms" "room_name"].
Proof.
  intros Hc Hg Hgen. unfold startup_event, except_CollectionInvalid, await_asend_None,
    prime_generator, set_generator, await_db.
  cbn [block fst snd]. rewrite Hc, Hg. cbn [block fst snd]. rewrite Hgen.
  cbn [block fst snd app].
  destruct (db (CreateCollection "users")) as [[|e1]|]; cbn [block fst snd app];
    [made_calls 3 | made_calls 3 |].
  destruct (db (CreateCollection "rooms")) as [[|e2]|]; cbn [block fst snd app];
    [made_calls 4 | made_calls 4 |].
  destruct (db (CreateIndex "users" "username")) as [[|e3]|]; cbn [block fst snd app];
    [made_calls 5 | made_calls 5 |].
  destruct (db (CreateIndex "rooms" "room_name")) as [[|e4]|]; cbn [block fst snd app];
    made_calls 6.
Qed.

(** X17. The [try] of [startup_event] spans all four creations: when
    one of them raises CollectionInvalid, as [create_collection] does
    for a collection that exists, the startup returns normally and the
    creations after it are not attempted. On a database that has the
    collection of users already, neither the collection of rooms nor
    any of the two unique indexes is created. *)
Theorem startup_event_skips_after_CollectionInvalid n done c skipped :
  db ConnectToMongo = None ->
  db GetNosqlDb = None ->
  generator n = GenCreated ->
  [CreateCollection "users"; CreateCollection "rooms";
   CreateIndex "users" "username"; CreateIndex "rooms" "room_name"]
  = done ++ c :: skipped ->
  Forall (fun x => db x = None) done ->
  db c = Some CollectionInvalid ->
  startup_event db n
  = (None, (mkNotifier (connections n) GenSuspended (log n),
            [ConnectToMongo; GetNosqlDb] ++ done ++ [c])).
Proof.
  intros Hc Hg Hgen Hsplit Hdone Hraise.
  unfold startup_event, except_CollectionInvalid, await_asend_None,
    prime_generator, set_generator, await_db.
  cbn [block fst snd]. rewrite Hc, Hg. cbn [block fst snd]. rewrite Hgen.
  cbn [block fst snd app].
  destruct done as [|d1 [|d2 [|d3 [|d4 done]]]]; simplify_eq/=.
  - by rewrite Hraise.
  - apply Forall_cons in Hdone as [-> _]. cbn [block fst snd app]. by rewrite Hraise.
  - apply Forall_cons in Hdone as [-> Hdone]. apply Forall_cons in Hdone as [-> _].
    cbn [block fst snd app]. by rewrite Hraise.
  - apply Forall_cons in Hdone as [-> Hdone]. apply Forall_cons in Hdone as [-> Hdone].
    apply Forall_cons in Hdone as [-> _]. cbn [block fst snd app]. by rewrite Hraise.
  - by destruct done.
Qed.

End StartupFacts.

Lemma startup_event_primes_generator_witness :
  (startup_event fresh_db Notifier_init).2.1
  = mkNotifier (connections Notifier_init) GenSuspended (log Notifier_init)
  /\ (startup_event fresh_db Notifier_init).1 <> Some CollectionInvalid
  /\ exists k, 3 <= k
       /\ (startup_event fresh_db Notifier_init).2.2
          = take k [ConnectToMongo; GetNosqlDb;
                    CreateCollection "users"; CreateCollection "rooms";
                    CreateIndex "users" "username"; CreateIndex "rooms" "room_name"].
Proof.
  apply (startup_event_primes_generator fresh_db Notifier_init).
  - reflexivity.
  - reflexivity.
  - reflexivity.
Defined.

Lemma startup_event_skips_after_CollectionInvalid_witness :
  startup_event used_db Notifier_init
  = (None, (mkNotifier (connections Notifier_init) GenSuspended (log Notifier_init),
            [ConnectToMongo; GetNosqlDb] ++ [] ++ [CreateCollection "users"])).
Proof.
  apply (startup_event_skips_after_CollectionInvalid used_db Notifier_init []
           (CreateCollection "users")
           [CreateCollection "rooms"; CreateIndex "users" "username";
            CreateIndex "rooms" "room_name"]).
  - reflexivity.
  - reflexivity.
  - reflexivity.
  - reflexivity.
  - apply Forall_nil_2.
  - reflexivity.
Defined.

(** ** Sessions never double an entry *)

Lemma list_remove_keeps_NoDup x l l' : NoDup l -> list_remove x l = Some l' -> NoDup l'.
Proof.
  revert l'. induction l as [|y l IH]; intros l' Hnd H; simpl in H; [done|].
  apply NoDup_cons in Hnd as [Hy Hnd].
  destruct (decide (x = y)) as [->|Hne].
  - by injection H as <-.
  - destruct (list_remove x l) as [l0|] eqn:E; [|done]. injection H as <-.
    apply NoDup_cons. split; [|by apply IH].
    intros Hin. apply Hy. by apply (list_remove_subset x y l l0).
Qed.

Lemma remove_keeps_NoDup websocket room_name n :
  NoDup (elements_of (room_value room_name n)) ->
  NoDup (elements_of (room_value room_name (snd (remove websocket room_name n)))).
Proof.
  intros Hnd. unfold remove, mbind, M_bind. rewrite getitem_eq.
  destruct (room_value room_name n) as [|l] eqn:Hv; simpl.
  - by rewrite getitem_room_value, Hv.
  - destruct (list_remove websocket l) as [l'|] eqn:Hl; simpl.
    + unfold room_value. simpl. rewrite lookup_insert_eq. simpl.
      by apply (list_remove_keeps_NoDup websocket l).
    + by rewrite getitem_room_value, Hv.
Qed.

Section DistinctFacts.

Variable accept : WebSocket -> option exn.
Variable send_text : WebSocket -> string -> option exn.
Variable json_loads : string -> option parsed.
Variable insert_message : value -> value -> value -> option exn.

(** X18. A session that runs without interleaving never doubles an
    entry of its room: if the list holds no connection twice and not
    the connection of the session when [websocket_endpoint] is called,
    it holds no connection twice when the session ends or waits in a
    receive, whatever the transports, the parser and the store do. The
    test [websocket not in room_members] on line 194 is what keeps the
    re-join from appending a second entry. *)
Theorem websocket_endpoint_keeps_distinct websocket room_name received n :
  NoDup (elements_of (room_value room_name n)) ->
  websocket ∉ elements_of (room_value room_name n) ->
  NoDup (elements_of (room_value room_name
    (snd (websocket_endpoint accept send_text json_loads insert_message
            websocket room_name received n)))).
Proof.
  intros Hnd Hnin. unfold websocket_endpoint, mbind, M_bind.
  destruct (accept websocket) as [e|] eqn:Ha.
  - by rewrite (connect_refused _ _ _ _ _ Ha).
  - rewrite (connect_spec _ _ _ _ Ha).
    set (n1 := set_room _ _ _).
    assert (NoDup (elements_of (room_value room_name n1))) as Hnd1.
    { unfold n1. rewrite room_value_set_room. simpl.
      apply NoDup_app. split; [done|]. split; [|apply NoDup_singleton].
      intros x Hx Hx'. apply list_elem_of_singleton in Hx'. by subst x. }
    pose proof (while_true_NoDup accept send_text json_loads insert_message
                  websocket room_name received n1 Hnd1) as Hnd2.
    unfold except_disconnect.
    destruct (while_true _ _ _ _ _ _ _ n1) as [[[]|e] n2]; simpl in *; [done|].
    destruct (decide (e = WebSocketDisconnect)); [|done].
    by apply remove_keeps_NoDup.
Qed.

End DistinctFacts.

Lemma websocket_endpoint_keeps_distinct_witness :
  NoDup (elements_of (room_value "r"
    (snd (websocket_endpoint accepting (hung_up 2) parse_hi stores 3 "r"
            [Ok "hi from A"; Ok "hi from A"] room_r)))).
Proof.
  apply (websocket_endpoint_keeps_distinct accepting (hung_up 2) parse_hi stores 3 "r"
           [Ok "hi from A"; Ok "hi from A"] room_r).
  - change (NoDup [1; 2]). apply NoDup_cons. split.
    + intros H. apply elem_of_cons in H as [H|H]; [discriminate H|].
      by apply not_elem_of_nil in H.
    + apply NoDup_singleton.
  - change (3 ∉ [1; 2]). intros H.
    repeat (apply elem_of_cons in H as [H|H]; [discriminate H|]).
    by apply not_elem_of_nil in H.
Defined.

(** The state of the example in which a first send is awaited is one
    the server gets to. *)
Lemma first_send_awaited_reached :
  run parse_hi Server_init
    (three_joined ++ [Resume 0 (ReceiveDone (Ok "hi from A")); Resume 0 (InsertDone None)])
  = Some first_send_awaited.
Proof. vm_compute. reflexivity. Qed.

(** ** The re-join of an absent sender *)



